(** * Bond valuation calculator: the valuation engine and its state store

    A shallow embedding of [calculations.js] (pricing, cash-flow schedule,
    premium/discount classification, orchestration), of [modules/state.js]
    (the observable store) and of the input pipeline of the main module
    ([setupInputListeners], [updateCalculations]).

    Numbers.  A JavaScript number is modelled by [num]: an exact rational,
    or one of the three non-finite values [+Infinity], [-Infinity], [NaN].
    Arithmetic on finite values is exact (no rounding, no overflow, one
    unsigned zero); the non-finite cases follow IEEE 754 as ECMAScript
    prescribes them.  Equalities that the floating-point program satisfies
    only up to rounding are therefore exact here. *)

From Stdlib Require Import QArith Qcanon Qcabs Qround ZArith Lia.
From stdpp Require Import base numbers option list gmap strings.
From Stdlib Require Import Ascii.

(** ** JavaScript numbers *)

Inductive num : Type :=
  | Fin (q : Qc)
  | PInf
  | NInf
  | NaN.

#[global] Instance num_eq_dec : EqDecision num.
Proof. solve_decision. Defined.

(** Literals: [lit 0.01], [lit 100], and integers (loop counters). *)
Definition lit (q : Q) : num := Fin (Q2Qc q).
Definition of_Z (z : Z) : num := Fin (Qc_of_Z z).

Definition is_finite (x : num) : bool :=
  match x with Fin _ => true | _ => false end.

(** [Number.isInteger]-style test on a rational. *)
Definition is_integral (q : Qc) : bool :=
  bool_decide (Qc_of_Z (Qfloor q) = q).

Definition inf_of_sign (negative : bool) : num :=
  if negative then NInf else PInf.

Definition nneg (x : num) : num :=
  match x with
  | Fin q => Fin (- q)%Qc
  | PInf => NInf
  | NInf => PInf
  | NaN => NaN
  end.

Definition nadd (x y : num) : num :=
  match x, y with
  | NaN, _ | _, NaN => NaN
  | Fin a, Fin b => Fin (a + b)%Qc
  | PInf, NInf | NInf, PInf => NaN
  | PInf, _ | _, PInf => PInf
  | NInf, _ | _, NInf => NInf
  end.

Definition nsub (x y : num) : num := nadd x (nneg y).

(** Sign of a non-NaN value: [None] for zero. *)
Definition negative_sign (x : num) : option bool :=
  match x with
  | Fin q => if bool_decide (q = 0%Qc) then None
             else Some (bool_decide (q < 0)%Qc)
  | PInf => Some false
  | NInf => Some true
  | NaN => None
  end.

Definition nmul (x y : num) : num :=
  match x, y with
  | NaN, _ | _, NaN => NaN
  | Fin a, Fin b => Fin (a * b)%Qc
  | _, _ =>
      (* at least one factor is infinite: 0 * Infinity is NaN *)
      match negative_sign x, negative_sign y with
      | Some sx, Some sy => inf_of_sign (xorb sx sy)
      | _, _ => NaN
      end
  end.

(** Division.  A zero divisor is the positive zero (the only zero that the
    modelled program can produce as a divisor: [1 + (-1)] and [Math.pow] of
    it are [+0]). *)
Definition ndiv (x y : num) : num :=
  match x, y with
  | NaN, _ | _, NaN => NaN
  | Fin a, Fin b =>
      if bool_decide (b = 0%Qc) then
        match negative_sign x with
        | None => NaN
        | Some s => inf_of_sign s
        end
      else Fin (a / b)%Qc
  | Fin _, _ => Fin 0%Qc
  | _, Fin b => inf_of_sign (xorb (bool_decide (x = NInf))
                                  (bool_decide (b < 0)%Qc))
  | _, _ => NaN
  end.

Definition nabs (x : num) : num :=
  match x with
  | Fin q => if bool_decide (q < 0)%Qc then Fin (- q)%Qc else Fin q
  | PInf | NInf => PInf
  | NaN => NaN
  end.

(** Comparisons: every comparison with [NaN] is false. *)
Definition nle (x y : num) : bool :=
  match x, y with
  | NaN, _ | _, NaN => false
  | Fin a, Fin b => bool_decide (a <= b)%Qc
  | NInf, _ | _, PInf => true
  | _, _ => false
  end.

Definition nlt (x y : num) : bool :=
  match x, y with
  | NaN, _ | _, NaN => false
  | Fin a, Fin b => bool_decide (a < b)%Qc
  | PInf, _ | _, NInf => false
  | _, _ => true
  end.

Definition ngt (x y : num) : bool := nlt y x.

(** Strict equality [===] on numbers. *)
Definition nseq (x y : num) : bool :=
  match x, y with
  | NaN, _ | _, NaN => false
  | _, _ => bool_decide (x = y)
  end.

Declare Scope num_scope.
Delimit Scope num_scope with num.
Bind Scope num_scope with num.
Infix "+" := nadd : num_scope.
Infix "-" := nsub : num_scope.
Infix "*" := nmul : num_scope.
Infix "/" := ndiv : num_scope.
Notation "- x" := (nneg x) : num_scope.

(** Integer powers of a rational. *)
Definition Qc_powZ (b : Qc) (n : Z) : Qc :=
  match n with
  | Z0 => 1%Qc
  | Zpos p => (b ^ Pos.to_nat p)%Qc
  | Zneg p => (/ (b ^ Pos.to_nat p))%Qc
  end.

(** ** Outcomes of a call

    A call returns, throws, or (in the model) exhausts the fuel that bounds
    its loops. *)

Inductive exn : Type :=
  | DomainError
  | TypeError
  | RangeError.

Inductive outcome (A : Type) : Type :=
  | Return (a : A)
  | Throw (e : exn)
  | OutOfFuel.

Arguments Return {A} a.
Arguments Throw {A} e.
Arguments OutOfFuel {A}.

#[global] Instance outcome_ret : MRet outcome := @Return.

#[global] Instance outcome_bind : MBind outcome := fun A B k m =>
  match m with
  | Return a => k a
  | Throw e => Throw e
  | OutOfFuel => OutOfFuel
  end.

#[global] Instance outcome_fmap : FMap outcome := fun A B f m =>
  match m with
  | Return a => Return (f a)
  | Throw e => Throw e
  | OutOfFuel => OutOfFuel
  end.

(** [for (let t = t0; t <= periods; t++) acc = body t acc]. *)
Fixpoint for_loop {A : Type} (fuel : nat) (periods : num)
    (body : Z -> A -> A) (t : Z) (acc : A) : outcome A :=
  if nle (of_Z t) periods then
    match fuel with
    | O => OutOfFuel
    | S fuel' => for_loop fuel' periods body (t + 1)%Z (body t acc)
    end
  else Return acc.

(** ** Data model *)

Record BondParameters : Type := mkBondParameters {
  faceValue : num;
  couponRate : num;
  ytm : num;
  years : num;
  frequency : num
}.

Record PriceComponents : Type := mkPriceComponents {
  pc_price : num;
  pc_pvCoupons : num;
  pc_pvFaceValue : num;
  pc_periodicCoupon : num;
  pc_periodicYield : num;
  pc_periods : num
}.

Record CashFlow : Type := mkCashFlow {
  cf_period : num;
  cf_yearLabel : num;
  cf_couponPayment : num;
  cf_principalPayment : num;
  cf_totalCashFlow : num
}.

Inductive BondTypeTag : Type := par | premium | discount.

Record BondClassification : Type := mkBondClassification {
  bt_type : BondTypeTag;
  bt_description : string;
  bt_difference : num
}.

Record ValuationResult : Type := mkValuationResult {
  vr_bondPrice : num;
  vr_pvCoupons : num;
  vr_pvFaceValue : num;
  vr_periodicCoupon : num;
  vr_periodicYield : num;
  vr_periods : num;
  vr_cashFlows : list CashFlow;
  vr_bondType : BondClassification
}.

#[global] Instance BondParameters_eq_dec : EqDecision BondParameters.
Proof. solve_decision. Defined.
#[global] Instance PriceComponents_eq_dec : EqDecision PriceComponents.
Proof. solve_decision. Defined.
#[global] Instance CashFlow_eq_dec : EqDecision CashFlow.
Proof. solve_decision. Defined.
#[global] Instance BondTypeTag_eq_dec : EqDecision BondTypeTag.
Proof. solve_decision. Defined.
#[global] Instance BondClassification_eq_dec : EqDecision BondClassification.
Proof. solve_decision. Defined.
#[global] Instance ValuationResult_eq_dec : EqDecision ValuationResult.
Proof. solve_decision. Defined.
#[global] Instance exn_eq_dec : EqDecision exn.
Proof. solve_decision. Defined.
#[global] Instance outcome_eq_dec {A : Type} `{EqDecision A} :
  EqDecision (outcome A).
Proof. solve_decision. Defined.

(** The classification of the mirrored comparison. *)
Definition swap_type (t : BondTypeTag) : BondTypeTag :=
  match t with
  | par => par
  | premium => discount
  | discount => premium
  end.

(** Bond parameters with finite fields. *)
Definition finite_bond (F cr yt yr fr : Qc) : BondParameters :=
  {| faceValue := Fin F; couponRate := Fin cr; ytm := Fin yt;
     years := Fin yr; frequency := Fin fr |}.

(** The three inputs of [runSelfTests]. *)
Definition selfTest_par : BondParameters :=
  finite_bond (Q2Qc 100) (Q2Qc 6) (Q2Qc 6) (Q2Qc 5) (Q2Qc 2).
Definition selfTest_premium : BondParameters :=
  finite_bond (Q2Qc 100) (Q2Qc 8) (Q2Qc 6) (Q2Qc 5) (Q2Qc 2).
Definition selfTest_discount : BondParameters :=
  finite_bond (Q2Qc 100) (Q2Qc 4) (Q2Qc 6) (Q2Qc 5) (Q2Qc 2).

(** ** modules/state.js: the observable store *)

Inductive ViewMode : Type := chart | table.

(** A subscriber is identified by the order number under which the
    application registers it; its calls are recorded, see [Store]. *)
Definition listener : Type := nat.

Record State : Type := mkState {
  st_faceValue : num;
  st_couponRate : num;
  st_ytm : num;
  st_years : num;
  st_frequency : num;
  st_viewMode : ViewMode;
  st_errors : gmap string string;
  st_bondCalculations : option ValuationResult;
  st_listeners : list listener
}.

(** The module-level [state] object as exported. *)
Definition initial_state : State :=
  {| st_faceValue := lit 100;
     st_couponRate := lit 8.6;
     st_ytm := lit 6.5;
     st_years := lit 5;
     st_frequency := lit 2;
     st_viewMode := chart;
     st_errors := ∅;
     st_bondCalculations := None;
     st_listeners := [] |}.

(** The three input fields wired by [setupInputListeners]. *)
Inductive Field : Type := couponRate_field | ytm_field | years_field.

Definition field_key (f : Field) : string :=
  match f with
  | couponRate_field => "couponRate"
  | ytm_field => "ytm"
  | years_field => "years"
  end.

(** One property of the partial object handed to [setState].  The keys are
    those that the call sites of the application write: the three input
    fields, viewMode, errors and bondCalculations.  [setState] itself would
    assign any key, [listeners], [faceValue] and [frequency] included; no
    call site passes them, and statements over [update] are about the
    updates that can be written this way. *)
Inductive update : Type :=
  | SetField (f : Field) (value : num)
  | SetViewMode (v : ViewMode)
  | SetErrors (errors : gmap string string)
  | SetBondCalculations (c : option ValuationResult).

Definition assign1 (s : State) (u : update) : State :=
  match u with
  | SetField couponRate_field v =>
      mkState (st_faceValue s) v (st_ytm s) (st_years s) (st_frequency s)
        (st_viewMode s) (st_errors s) (st_bondCalculations s) (st_listeners s)
  | SetField ytm_field v =>
      mkState (st_faceValue s) (st_couponRate s) v (st_years s)
        (st_frequency s) (st_viewMode s) (st_errors s)
        (st_bondCalculations s) (st_listeners s)
  | SetField years_field v =>
      mkState (st_faceValue s) (st_couponRate s) (st_ytm s) v
        (st_frequency s) (st_viewMode s) (st_errors s)
        (st_bondCalculations s) (st_listeners s)
  | SetViewMode v =>
      mkState (st_faceValue s) (st_couponRate s) (st_ytm s) (st_years s)
        (st_frequency s) v (st_errors s) (st_bondCalculations s)
        (st_listeners s)
  | SetErrors e =>
      mkState (st_faceValue s) (st_couponRate s) (st_ytm s) (st_years s)
        (st_frequency s) (st_viewMode s) e (st_bondCalculations s)
        (st_listeners s)
  | SetBondCalculations c =>
      mkState (st_faceValue s) (st_couponRate s) (st_ytm s) (st_years s)
        (st_frequency s) (st_viewMode s) (st_errors s) c (st_listeners s)
  end.

(** [Object.assign(state, updates)]. *)
Definition Object_assign (s : State) (updates : list update) : State :=
  foldl assign1 s updates.

(** The store together with the record of what its subscribers were shown:
    each call [fn(state)] is logged as [(fn, state)] with the state as it
    is at the time of the call.  Subscribers are observers: the only one the
    application registers, [handleStateChange], renders and never writes. *)
Record Store : Type := mkStore {
  state : State;
  notified : list (listener * State)
}.

Definition setState (updates : list update) (w : Store) : Store :=
  let s := Object_assign (state w) updates in
  {| state := s;
     notified := notified w ++ map (fun fn => (fn, s)) (st_listeners s) |}.

Definition subscribe (fn : listener) (w : Store) : Store :=
  let s := state w in
  {| state :=
       mkState (st_faceValue s) (st_couponRate s) (st_ytm s) (st_years s)
         (st_frequency s) (st_viewMode s) (st_errors s)
         (st_bondCalculations s) (st_listeners s ++ [fn]);
     notified := notified w |}.

(** The store as the page loads it: the exported state, nobody notified. *)
Definition initial_store : Store :=
  {| state := initial_state; notified := [] |}.

(** Modelled from the spec: [validation.js] is not among the sources.  The
    validator contract gives the constraints (couponRate at least 0, ytm a
    finite real, years above 0) and the result shape (an error message or
    none); the wording of the messages is not fixed by it. *)
Definition validateField (field : Field) (value : num) : option string :=
  match field with
  | couponRate_field =>
      if nle (lit 0) value then None
      else Some "Coupon rate must be zero or more"
  | ytm_field =>
      if is_finite value then None
      else Some "Yield to maturity must be a number"
  | years_field =>
      if nlt (lit 0) value then None
      else Some "Years to maturity must be more than zero"
  end.

(** Modelled from the spec: the aggregate [hasErrors(errorMap)] of the same
    missing module; true when an error is active for any field. *)
Definition hasErrors (errors : gmap string string) : bool :=
  negb (bool_decide (errors = ∅)).

(** ** The main module: view switching and rendering *)

#[global] Instance ViewMode_eq_dec : EqDecision ViewMode.
Proof. solve_decision. Defined.

(** [switchView], as far as the store goes: the class, ARIA and display
    writes on the two buttons, the two containers and the legend (all taken
    to be present in the page), the announcement and the focus move do not
    touch the store. *)
Definition switchView (view : ViewMode) (w : Store) : Store :=
  setState [SetViewMode view] w.

(** [handleResponsiveView] at viewport width [innerWidth], as far as the
    store goes (the writes that disable or enable the buttons are left
    out). *)
Definition handleResponsiveView (innerWidth : num) (w : Store) : Store :=
  if nlt innerWidth (lit 600) then
    if bool_decide (st_viewMode (state w) = chart) then switchView table w
    else w
  else w.

(** A call of one of the three renderers, with its arguments. *)
Inductive RenderCall : Type :=
  | renderResults (calculations : ValuationResult)
      (faceValue couponRate ytm years : num)
  | renderChart (cashFlows : list CashFlow) (showLabels : bool)
  | renderTable (cashFlows : list CashFlow)
      (bondPrice periods periodicCoupon : num).

(** chart.js: [shouldShowLabels], at viewport width [innerWidth]. *)
Definition shouldShowLabels (innerWidth : num) : bool :=
  ngt innerWidth (lit 860).

(** The body of the subscriber [handleStateChange]: the renderer calls it
    makes, in order, when called with [newState]. *)
Definition handleStateChange_calls (innerWidth : num) (newState : State)
  : list RenderCall :=
  match st_bondCalculations newState with
  | None => []
  | Some bondCalculations =>
      [ renderResults bondCalculations (st_faceValue newState)
          (st_couponRate newState) (st_ytm newState) (st_years newState) ]
      ++ (if bool_decide (st_viewMode newState = chart) then
            [ renderChart (vr_cashFlows bondCalculations)
                (shouldShowLabels innerWidth) ]
          else [])
      ++ [ renderTable (vr_cashFlows bondCalculations)
             (vr_bondPrice bondCalculations) (vr_periods bondCalculations)
             (vr_periodicCoupon bondCalculations) ]
  end.

(** The renderer calls caused by a stretch of the notification log: each
    notification of the subscriber registered by [init] runs
    [handleStateChange]. *)
Definition draws (innerWidth : num) (log : list (listener * State))
  : list RenderCall :=
  flat_map
    (fun entry =>
       if bool_decide (entry.1 = 0%nat)
       then handleStateChange_calls innerWidth entry.2 else [])
    log.

(** The callback that [setupResizeListener] runs 250 ms after the last
    resize event: the store afterwards, and the renderer call it makes
    itself. *)
Definition resizeCallback (innerWidth : num) (w : Store)
  : Store * list RenderCall :=
  let w := handleResponsiveView innerWidth w in
  match st_bondCalculations (state w) with
  | Some bondCalculations =>
      if bool_decide (st_viewMode (state w) = chart) then
        (w, [ renderChart (vr_cashFlows bondCalculations)
                (shouldShowLabels innerWidth) ])
      else (w, [])
  | None => (w, [])
  end.

(** ** chart.js: keyboard navigation *)

(** The module-level variables of the chart that the key handler reads
    and writes. *)
Record ChartFocus : Type := mkChartFocus {
  currentFocusIndex : Z;
  isKeyboardMode : bool
}.

(** What one key press did besides updating [ChartFocus]: nothing handled
    (the default action of the key is kept), handled without a move, moved
    and announced the data point ([total] is [None] when [totalData] has no
    such index), or moved and then failed reading a cash flow that is not
    there ([cashFlow.yearLabel] of [undefined]). *)
Inductive KeyResult : Type :=
  | key_ignored
  | key_stayed
  | key_announced (cashFlow : CashFlow) (total : option num)
  | key_TypeError.

(** [keydownListener] of [setupKeyboardNavigation]; [totalData] is the
    list of totals that [renderChart] hands over. *)
Definition keydownListener (cashFlows : list CashFlow) (totalData : list num)
    (key : string) (f : ChartFocus) : ChartFocus * KeyResult :=
  let maxIndex := (Z.of_nat (length cashFlows) - 1)%Z in
  let moved (newIndex : Z) : ChartFocus * KeyResult :=
    if bool_decide (newIndex <> currentFocusIndex f) then
      ({| currentFocusIndex := newIndex; isKeyboardMode := true |},
       if bool_decide (0 <= newIndex)%Z then
         match cashFlows !! Z.to_nat newIndex with
         | Some cashFlow =>
             key_announced cashFlow (totalData !! Z.to_nat newIndex)
         | None => key_TypeError
         end
       else key_TypeError)
    else
      ({| currentFocusIndex := currentFocusIndex f; isKeyboardMode := true |},
       key_stayed) in
  if bool_decide (key = "ArrowRight" \/ key = "ArrowDown") then
    moved (Z.min (currentFocusIndex f + 1) maxIndex)
  else if bool_decide (key = "ArrowLeft" \/ key = "ArrowUp") then
    moved (Z.max (currentFocusIndex f - 1) 0)
  else if bool_decide (key = "Home") then moved 0%Z
  else if bool_decide (key = "End") then moved maxIndex
  else
    ({| currentFocusIndex := currentFocusIndex f; isKeyboardMode := true |},
     key_ignored).

(** The focus right after [renderChart], which resets the index (the
    keyboard mode is whatever it was). *)
Definition focus_after_render (f : ChartFocus) : ChartFocus :=
  {| currentFocusIndex := 0; isKeyboardMode := isKeyboardMode f |}.

(** A run of key presses on one rendered chart. *)
Definition press_keys (cashFlows : list CashFlow) (keys : list string)
    (f : ChartFocus) : ChartFocus :=
  foldl (fun f key =>
           (keydownListener cashFlows (map cf_totalCashFlow cashFlows)
              key f).1)
    f keys.

(** ** chart.js: the data handed to the chart *)

Inductive BarColor : Type := COLORS_mint | COLORS_purchase.

(** The data arrays that [renderChart] builds from the schedule, and the
    per-bar colour of the principal dataset. *)
Record ChartData : Type := mkChartData {
  cd_labels : list num;
  cd_couponData : list num;
  cd_principalData : list num;
  cd_totalData : list num;
  cd_principalColors : list BarColor
}.

Definition chartData (cashFlows : list CashFlow) : ChartData :=
  let principalData := map cf_principalPayment cashFlows in
  {| cd_labels := map cf_yearLabel cashFlows;
     cd_couponData := map cf_couponPayment cashFlows;
     cd_principalData := principalData;
     cd_totalData := map cf_totalCashFlow cashFlows;
     cd_principalColors :=
       map (fun val => if nle (lit 0) val then COLORS_mint
                       else COLORS_purchase)
         principalData |}.


(** The stored value of an input field. *)
Definition get_field (f : Field) (s : State) : num :=
  match f with
  | couponRate_field => st_couponRate s
  | ytm_field => st_ytm s
  | years_field => st_years s
  end.

(** ** The main module: self-tests *)

(** The [expected] object of a self-test: each property may be absent. *)
Record Expected : Type := mkExpected {
  e_price : option num;
  e_tolerance : option num;
  e_priceShouldBe : option string
}.

Record SelfTest : Type := mkSelfTest {
  test_name : string;
  test_inputs : BondParameters;
  test_expected : Expected
}.

(** What a self-test writes to the console: a pass ([console.log]), a
    failure ([console.warn]), a caught exception ([console.error]), or
    nothing. *)
Inductive TestLog : Type :=
  | log_passed (name : string)
  | warn_failed (name : string)
  | error_threw (name : string)
  | no_message.

#[global] Instance TestLog_eq_dec : EqDecision TestLog.
Proof. solve_decision. Defined.

Definition tests : list SelfTest :=
  [ {| test_name := "Par bond pricing";
       test_inputs := selfTest_par;
       test_expected :=
         {| e_price := Some (lit 100); e_tolerance := Some (lit 0.2);
            e_priceShouldBe := None |} |};
    {| test_name := "Premium bond pricing";
       test_inputs := selfTest_premium;
       test_expected :=
         {| e_price := None; e_tolerance := None;
            e_priceShouldBe := Some "greater than 100" |} |};
    {| test_name := "Discount bond pricing";
       test_inputs := selfTest_discount;
       test_expected :=
         {| e_price := None; e_tolerance := None;
            e_priceShouldBe := Some "less than 100" |} |} ].


(** ** modules/tooltip.js: from a tooltip id to the id of its input *)

(** [s.split('-')]. *)
Fixpoint split_dash (s : string) : list string :=
  match s with
  | EmptyString => [EmptyString]
  | String c s' =>
      if Ascii.eqb c "-"%char then EmptyString :: split_dash s'
      else match split_dash s' with
           | piece :: pieces => String c piece :: pieces
           | [] => [String c EmptyString]
           end
  end.

(** [s.replace(pattern, '')]: the first occurrence of [pattern], if
    any, is removed. *)
Fixpoint remove_first (pattern s : string) : string :=
  if String.prefix pattern s then
    String.substring (String.length pattern)
      (String.length s - String.length pattern) s
  else
    match s with
    | EmptyString => EmptyString
    | String c s' => String c (remove_first pattern s')
    end.

(** The argument that [initTooltips] hands to [document.getElementById]:
    [id.split('-')[1] || id.replace('tooltip-', '')]; an absent or empty
    second piece is falsy. *)
Definition tooltip_input_id (id : string) : string :=
  match split_dash id !! 1%nat with
  | Some piece =>
      if bool_decide (piece = EmptyString) then remove_first "tooltip-" id
      else piece
  | None => remove_first "tooltip-" id
  end.

(** A string without the character [-]. *)
Fixpoint dashless (s : string) : bool :=
  match s with
  | EmptyString => true
  | String c s' => negb (Ascii.eqb c "-"%char) && dashless s'
  end.


(** An instance of the parameter of the engine below, for running it on
    inputs that never reach the branch it stands for. *)
Definition pow_frac_unreached : Qc -> Qc -> num := fun _ _ => NaN.

(** ** Loop bookkeeping *)

(** Number of times the body of [for (t = t0; t <= periods; t++)] runs.
    With [periods = +Infinity] the loop does not end. *)
Definition trips (periods : num) (t0 : Z) : nat :=
  match periods with
  | Fin q => Z.to_nat (Qfloor q - t0 + 1)
  | _ => 0
  end.

(** [k] consecutive runs of a loop body, counter starting at [t]. *)
Fixpoint iter_from {A : Type} (body : Z -> A -> A) (t : Z) (k : nat)
    (acc : A) : A :=
  match k with
  | O => acc
  | S k' => iter_from body (t + 1)%Z k' (body t acc)
  end.

(** The finite sum of [f 1], ..., [f n], added in that order from 0. *)
Fixpoint sum_1_to (n : nat) (f : Z -> num) : num :=
  match n with
  | O => lit 0
  | S m => (sum_1_to m f + f (Z.of_nat (S m)))%num
  end.

(** The same sum over exact rationals. *)
Fixpoint Qsum_1_to (n : nat) (g : Z -> Qc) : Qc :=
  match n with
  | O => 0%Qc
  | S m => (Qsum_1_to m g + g (Z.of_nat (S m)))%Qc
  end.

(** Present value of [n] coupons [c] at growth factor [b = 1 + yield], and
    the annuity factor (the same with unit coupons). *)
Definition coupons_value (c b : Qc) (n : nat) : Qc :=
  Qsum_1_to n (fun t => (c / b ^ Z.to_nat t)%Qc).

Definition annuity_factor (b : Qc) (n : nat) : Qc :=
  Qsum_1_to n (fun t => (/ b ^ Z.to_nat t)%Qc).

Section Engine.

(** [Math.pow] at a positive base other than 1 and a non-integral exponent
    is in general irrational; that one branch of the built-in stays a
    parameter of the development. *)
Variable pow_frac : Qc -> Qc -> num.

(** [Math.pow], following the case list of ECMAScript's
    [Number::exponentiate]. *)
Definition Math_pow (base exponent : num) : num :=
  match exponent with
  | NaN => NaN
  | Fin e =>
      if bool_decide (e = 0%Qc) then Fin 1%Qc
      else
        match base with
        | NaN => NaN
        | PInf => if bool_decide (0 < e)%Qc then PInf else Fin 0%Qc
        | NInf =>
            if bool_decide (0 < e)%Qc then
              (if is_integral e && Z.odd (Qfloor e) then NInf else PInf)
            else Fin 0%Qc
        | Fin b =>
            if bool_decide (b = 0%Qc) then
              (if bool_decide (0 < e)%Qc then Fin 0%Qc else PInf)
            else if is_integral e then Fin (Qc_powZ b (Qfloor e))
            else if bool_decide (b < 0)%Qc then NaN
            else if bool_decide (b = 1%Qc) then Fin 1%Qc
            else pow_frac b e
        end
  | PInf =>
      match nabs base with
      | NaN => NaN
      | Fin a => if bool_decide (1 < a)%Qc then PInf
                 else if bool_decide (a = 1%Qc) then NaN else Fin 0%Qc
      | _ => PInf
      end
  | NInf =>
      match nabs base with
      | NaN => NaN
      | Fin a => if bool_decide (1 < a)%Qc then Fin 0%Qc
                 else if bool_decide (a = 1%Qc) then NaN else PInf
      | _ => Fin 0%Qc
      end
  end.

(** ** calculations.js *)

Definition calculateBondPrice (fuel : nat) (p : BondParameters)
  : outcome PriceComponents :=
  let periods := (years p * frequency p)%num in
  let periodicCouponRate := (couponRate p / lit 100 / frequency p)%num in
  let periodicYield := (ytm p / lit 100 / frequency p)%num in
  let periodicCoupon := (faceValue p * periodicCouponRate)%num in
  pvCoupons ←
    for_loop fuel periods
      (fun t pvCoupons =>
         (pvCoupons
          + periodicCoupon / Math_pow (lit 1 + periodicYield) (of_Z t))%num)
      1%Z (lit 0);
  let pvFaceValue :=
    (faceValue p / Math_pow (lit 1 + periodicYield) periods)%num in
  let price := (pvCoupons + pvFaceValue)%num in
  Return {| pc_price := price;
            pc_pvCoupons := pvCoupons;
            pc_pvFaceValue := pvFaceValue;
            pc_periodicCoupon := periodicCoupon;
            pc_periodicYield := periodicYield;
            pc_periods := periods |}.

(** The argument object of [generateCashFlows]. *)
Record CashFlowParams : Type := mkCashFlowParams {
  g_faceValue : num;
  g_frequency : num;
  g_years : num;
  g_periodicCoupon : num;
  g_bondPrice : num
}.

Definition generateCashFlows (fuel : nat) (a : CashFlowParams)
  : outcome (list CashFlow) :=
  let periods := (g_years a * g_frequency a)%num in
  let cashFlows :=
    [ {| cf_period := lit 0;
         cf_yearLabel := lit 0;
         cf_couponPayment := lit 0;
         cf_principalPayment := (- g_bondPrice a)%num;
         cf_totalCashFlow := (- g_bondPrice a)%num |} ] in
  for_loop fuel periods
    (fun t cashFlows =>
       let couponPayment := g_periodicCoupon a in
       let principalPayment :=
         if nseq (of_Z t) periods then g_faceValue a else lit 0 in
       let totalCashFlow := (couponPayment + principalPayment)%num in
       cashFlows ++
         [ {| cf_period := of_Z t;
              cf_yearLabel := (of_Z t / g_frequency a)%num;
              cf_couponPayment := couponPayment;
              cf_principalPayment := principalPayment;
              cf_totalCashFlow := totalCashFlow |} ])
    1%Z cashFlows.

Definition default_tolerance : num := lit 0.01.

(** [tolerance = None] is a call that leaves the third argument out. *)
Definition analyzeBondType (bondPrice faceValue : num)
    (tolerance : option num) : BondClassification :=
  let tolerance := default default_tolerance tolerance in
  let difference := (bondPrice - faceValue)%num in
  if nlt (nabs difference) tolerance then
    {| bt_type := par;
       bt_description := "Par bond";
       bt_difference := lit 0 |}
  else if ngt difference (lit 0) then
    {| bt_type := premium;
       bt_description := "Premium bond";
       bt_difference := difference |}
  else
    {| bt_type := discount;
       bt_description := "Discount bond";
       bt_difference := nabs difference |}.

Definition calculateBondMetrics (fuel : nat) (params : BondParameters)
  : outcome ValuationResult :=
  priceData ← calculateBondPrice fuel params;
  cashFlows ←
    generateCashFlows fuel
      {| g_faceValue := faceValue params;
         g_frequency := frequency params;
         g_years := years params;
         g_periodicCoupon := pc_periodicCoupon priceData;
         g_bondPrice := pc_price priceData |};
  let bondType := analyzeBondType (pc_price priceData) (faceValue params) None in
  Return {| vr_bondPrice := pc_price priceData;
            vr_pvCoupons := pc_pvCoupons priceData;
            vr_pvFaceValue := pc_pvFaceValue priceData;
            vr_periodicCoupon := pc_periodicCoupon priceData;
            vr_periodicYield := pc_periodicYield priceData;
            vr_periods := pc_periods priceData;
            vr_cashFlows := cashFlows;
            vr_bondType := bondType |}.

(** ** The main module: recomputation and the input pipeline *)

(** The renderer registered by [init]. *)
Definition handleStateChange : listener := 0%nat.

Definition updateCalculations (fuel : nat) (w : Store) : outcome Store :=
  let s := state w in
  if hasErrors (st_errors s) then
    Return (setState [SetBondCalculations None] w)
  else
    match
      calculateBondMetrics fuel
        {| faceValue := st_faceValue s;
           couponRate := st_couponRate s;
           ytm := st_ytm s;
           years := st_years s;
           frequency := st_frequency s |}
    with
    | Return calculations =>
        Return (setState [SetBondCalculations (Some calculations)] w)
    | Throw _ => Return (setState [SetBondCalculations None] w)
    | OutOfFuel => OutOfFuel
    end.

(** The callback that [setupInputListeners] debounces, for one field;
    [value] is [parseFloat(input.value)].  The DOM writes
    ([updateFieldError], [updateValidationSummary]) are not modelled. *)
Definition debouncedUpdate (fuel : nat) (field : Field) (value : num)
    (w : Store) : outcome Store :=
  let error := validateField field value in
  let errors :=
    match error with
    | Some e => <[field_key field := e]> (st_errors (state w))
    | None => delete (field_key field) (st_errors (state w))
    end in
  let w := setState [SetField field value; SetErrors errors] w in
  if negb (hasErrors errors) then updateCalculations fuel w
  else Return w.

(** The part of [init] that touches the store: subscribe the renderer,
    then compute once. *)
Definition init (fuel : nat) (w : Store) : outcome Store :=
  updateCalculations fuel (subscribe handleStateChange w).

(** The steps of [init] that touch the store, in order, at viewport width
    [innerWidth]: the first [handleResponsiveView] (made by
    [setupResizeListener]), [subscribe(handleStateChange)], and
    [updateCalculations]. *)
Definition init_page (fuel : nat) (innerWidth : num) (w : Store)
  : outcome Store :=
  updateCalculations fuel
    (subscribe handleStateChange (handleResponsiveView innerWidth w)).

(** One iteration of the [forEach] of [runSelfTests].  A comparison with
    an absent tolerance compares with [undefined], which is false. *)
Definition run_test (fuel : nat) (test : SelfTest) : outcome TestLog :=
  match calculateBondMetrics fuel (test_inputs test) with
  | Return result =>
      Return
        match e_price (test_expected test) with
        | Some price =>
            let diff := nabs (vr_bondPrice result - price)%num in
            if nle diff (default NaN (e_tolerance (test_expected test)))
            then log_passed (test_name test)
            else warn_failed (test_name test)
        | None =>
            if bool_decide (e_priceShouldBe (test_expected test)
                            = Some "greater than 100") then
              if ngt (vr_bondPrice result) (lit 100)
              then log_passed (test_name test)
              else warn_failed (test_name test)
            else if bool_decide (e_priceShouldBe (test_expected test)
                                 = Some "less than 100") then
              if nlt (vr_bondPrice result) (lit 100)
              then log_passed (test_name test)
              else warn_failed (test_name test)
            else no_message
        end
  | Throw _ => Return (error_threw (test_name test))
  | OutOfFuel => OutOfFuel
  end.

Definition runSelfTests (fuel : nat) : outcome (list TestLog) :=
  mapM (run_test fuel) tests.


(** ** Reference definitions, in the words of the specification *)

(** The pricing formulas of the specification.  The sum runs over the
    whole periods [1 .. periods]; for a [periods] that is not a whole
    number that is [1 .. floor periods]. *)
Definition reference_price (p : BondParameters) : PriceComponents :=
  let periods := (years p * frequency p)%num in
  let periodicCouponRate := (couponRate p / lit 100 / frequency p)%num in
  let periodicYield := (ytm p / lit 100 / frequency p)%num in
  let periodicCoupon := (faceValue p * periodicCouponRate)%num in
  let pvCoupons :=
    sum_1_to (trips periods 1)
      (fun t => (periodicCoupon
                 / Math_pow (lit 1 + periodicYield) (of_Z t))%num) in
  let pvFaceValue :=
    (faceValue p / Math_pow (lit 1 + periodicYield) periods)%num in
  {| pc_price := (pvCoupons + pvFaceValue)%num;
     pc_pvCoupons := pvCoupons;
     pc_pvFaceValue := pvFaceValue;
     pc_periodicCoupon := periodicCoupon;
     pc_periodicYield := periodicYield;
     pc_periods := periods |}.

(** Net present value of a schedule at a periodic yield: every entry's
    total cash flow times [(1 + periodicYield)^(- period)], summed. *)
Definition net_present_value (periodicYield : num) (cashFlows : list CashFlow)
  : num :=
  foldl
    (fun acc cf =>
       (acc + cf_totalCashFlow cf
              * Math_pow (lit 1 + periodicYield) (- cf_period cf))%num)
    (lit 0) cashFlows.

(** The entry that the specification places at period [t >= 1] of a
    schedule of [n] periods. *)
Definition reference_entry (a : CashFlowParams) (n t : Z) : CashFlow :=
  let principal := if bool_decide (t = n) then g_faceValue a else lit 0 in
  {| cf_period := of_Z t;
     cf_yearLabel := (of_Z t / g_frequency a)%num;
     cf_couponPayment := g_periodicCoupon a;
     cf_principalPayment := principal;
     cf_totalCashFlow := (g_periodicCoupon a + principal)%num |}.

(** The purchase entry at period 0. *)
Definition purchase_entry (a : CashFlowParams) : CashFlow :=
  {| cf_period := lit 0;
     cf_yearLabel := lit 0;
     cf_couponPayment := lit 0;
     cf_principalPayment := (- g_bondPrice a)%num;
     cf_totalCashFlow := (- g_bondPrice a)%num |}.

(** The arguments that [calculateBondMetrics] hands to
    [generateCashFlows]. *)
Definition schedule_params (p : BondParameters) (pc : PriceComponents)
  : CashFlowParams :=
  {| g_faceValue := faceValue p;
     g_frequency := frequency p;
     g_years := years p;
     g_periodicCoupon := pc_periodicCoupon pc;
     g_bondPrice := pc_price pc |}.

(** The parameters that [updateCalculations] reads off the state. *)
Definition params_of_state (s : State) : BondParameters :=
  {| faceValue := st_faceValue s;
     couponRate := st_couponRate s;
     ytm := st_ytm s;
     years := st_years s;
     frequency := st_frequency s |}.

(** A state whose stored result is the valuation of its own inputs (or
    is absent). *)
Definition result_matches_inputs (fuel : nat) (s : State) : Prop :=
  match st_bondCalculations s with
  | None => True
  | Some c => calculateBondMetrics fuel (params_of_state s) = Return c
  end.

#[global] Instance result_matches_inputs_dec (fuel : nat) (s : State) :
  Decision (result_matches_inputs fuel s).
Proof.
  unfold result_matches_inputs. destruct (st_bondCalculations s); apply _.
Defined.

(** ** The loops *)

Lemma of_Z_le_floor (t : Z) (q : Qc) :
  (Qc_of_Z t <= q)%Qc <-> (t <= Qfloor q)%Z.
Proof.
  unfold Qcle; simpl. split; intros H.
  - rewrite <- (Qfloor_Z t). by apply Qfloor_resp_le.
  - eapply Qle_trans; [|apply Qfloor_le]. by rewrite <- Zle_Qle.
Qed.

Lemma nle_of_Z_Fin (t : Z) (q : Qc) :
  nle (of_Z t) (Fin q) = bool_decide (t <= Qfloor q)%Z.
Proof. simpl. apply bool_decide_ext, of_Z_le_floor. Qed.

Lemma for_loop_run {A : Type} (body : Z -> A -> A) (periods : num) :
  periods <> PInf ->
  forall (k fuel : nat) (t : Z) (acc : A),
    trips periods t = k -> (k <= fuel)%nat ->
    for_loop fuel periods body t acc = Return (iter_from body t k acc).
Proof.
  intros Hp. induction k as [|k IH]; intros fuel t acc Hk Hfuel.
  - destruct periods as [q| | |]; try done; destruct fuel; simpl in *;
      try done.
    all: rewrite bool_decide_eq_false_2; [done|];
      rewrite of_Z_le_floor; lia.
  - destruct periods as [q| | |]; simpl in Hk; try done.
    destruct fuel as [|fuel]; [lia|].
    cbn [for_loop iter_from]. rewrite nle_of_Z_Fin.
    rewrite bool_decide_eq_true_2 by lia.
    apply IH; [simpl; lia | lia].
Qed.

Lemma for_loop_diverges {A : Type} (body : Z -> A -> A) (fuel : nat) :
  forall (t : Z) (acc : A), for_loop fuel PInf body t acc = OutOfFuel.
Proof. induction fuel as [|fuel IH]; intros; simpl; [done | apply IH]. Qed.

Lemma iter_from_last {A : Type} (body : Z -> A -> A) (k : nat) :
  forall (t : Z) (acc : A),
    iter_from body t (S k) acc
    = body (t + Z.of_nat k)%Z (iter_from body t k acc).
Proof.
  induction k as [|k IH]; intros t acc.
  - simpl. by rewrite Z.add_0_r.
  - change (iter_from body t (S (S k)) acc)
      with (iter_from body (t + 1)%Z (S k) (body t acc)).
    rewrite IH. cbn [iter_from]. f_equal. lia.
Qed.

Lemma iter_from_sum (f : Z -> num) (n : nat) :
  iter_from (fun t acc => (acc + f t)%num) 1%Z n (lit 0) = sum_1_to n f.
Proof.
  induction n as [|n IH]; [done|].
  rewrite iter_from_last, IH. cbn [sum_1_to]. do 2 f_equal. lia.
Qed.

Lemma iter_from_push {B : Type} (entry : Z -> B) (n : nat) :
  forall (t : Z) (l : list B),
    iter_from (fun t acc => acc ++ [entry t]) t n l
    = l ++ map entry (seqZ t (Z.of_nat n)).
Proof.
  induction n as [|n IH]; intros t l.
  - simpl. by rewrite app_nil_r.
  - cbn [iter_from]. rewrite IH, <- app_assoc. f_equal.
    replace (Z.of_nat (S n)) with (Z.succ (Z.of_nat n)) by lia.
    rewrite (seqZ_cons t) by lia. simpl. do 3 f_equal; lia.
Qed.

(** ** Pricing against the reference formulas *)

Lemma calculateBondPrice_run (p : BondParameters) (fuel : nat) :
  (years p * frequency p)%num <> PInf ->
  (trips (years p * frequency p) 1 <= fuel)%nat ->
  calculateBondPrice fuel p = Return (reference_price p).
Proof.
  intros Hfin Hfuel. unfold calculateBondPrice.
  rewrite (for_loop_run _ _ Hfin _ fuel 1%Z _ eq_refl Hfuel).
  rewrite (iter_from_sum
    (fun t => (faceValue p * (couponRate p / lit 100 / frequency p)
               / Math_pow (lit 1 + ytm p / lit 100 / frequency p)
                   (of_Z t))%num)).
  done.
Qed.

(** C1.  For bond parameters whose product years x frequency is not
    +Infinity (in particular for all finite parameters), and fuel for the
    loop, [calculateBondPrice] returns exactly the components of the
    reference definition: periods = years x frequency, periodicCoupon =
    faceValue x (couponRate/100/frequency), periodicYield = ytm/100/frequency,
    pvCoupons the sum over t = 1..periods of periodicCoupon/(1+periodicYield)^t,
    pvFaceValue = faceValue/(1+periodicYield)^periods; and the returned price
    is the sum of the two returned components. *)
Theorem calculateBondPrice_reference (p : BondParameters) (fuel : nat) :
  (years p * frequency p)%num <> PInf ->
  (trips (years p * frequency p) 1 <= fuel)%nat ->
  calculateBondPrice fuel p = Return (reference_price p)
  /\ pc_price (reference_price p)
     = (pc_pvCoupons (reference_price p)
        + pc_pvFaceValue (reference_price p))%num.
Proof.
  intros Hfin Hfuel. split; [by apply calculateBondPrice_run | done].
Qed.

(** ** The cash-flow schedule *)

Lemma nseq_of_Z (t n : Z) : nseq (of_Z t) (of_Z n) = bool_decide (t = n).
Proof.
  unfold nseq, of_Z. apply bool_decide_ext. split.
  - intros H. apply Z2Qc_inj. congruence.
  - by intros ->.
Qed.

Lemma Qfloor_of_Z (n : Z) : Qfloor (Qc_of_Z n) = n.
Proof. exact (Qfloor_Z n). Qed.

Lemma is_integral_of_Z (n : Z) : is_integral (Qc_of_Z n) = true.
Proof.
  unfold is_integral. apply bool_decide_eq_true_2.
  by rewrite Qfloor_of_Z.
Qed.

Lemma nseq_of_Z_fractional (t : Z) (q : Qc) :
  is_integral q = false -> nseq (of_Z t) (Fin q) = false.
Proof.
  intros Hq. unfold nseq, of_Z. apply bool_decide_eq_false_2.
  intros H. assert (Hq' : Qc_of_Z t = q) by congruence.
  rewrite <- Hq', is_integral_of_Z in Hq. done.
Qed.

Lemma trips_of_Z (n : Z) : trips (of_Z n) 1 = Z.to_nat n.
Proof. unfold trips, of_Z. rewrite Qfloor_of_Z. f_equal. lia. Qed.

Lemma nadd_0_l (x : num) : (lit 0 + x)%num = x.
Proof. destruct x; simpl; try done. f_equal. apply Qcplus_0_l. Qed.

Lemma nmul_Fin_inv (x y : num) (q : Qc) :
  (x * y)%num = Fin q -> exists a b, x = Fin a /\ y = Fin b /\ q = (a * b)%Qc.
Proof.
  destruct x as [a| | |], y as [b| | |]; simpl; unfold inf_of_sign;
    intros H; repeat case_match; try done.
  injection H as <-. by exists a, b.
Qed.

(** The schedule in closed form, as the loop builds it. *)
Lemma generateCashFlows_run (a : CashFlowParams) (fuel : nat) :
  let periods := (g_years a * g_frequency a)%num in
  periods <> PInf -> (trips periods 1 <= fuel)%nat ->
  generateCashFlows fuel a
  = Return
      (purchase_entry a
       :: map (fun t =>
                 let principal :=
                   if nseq (of_Z t) periods then g_faceValue a else lit 0 in
                 {| cf_period := of_Z t;
                    cf_yearLabel := (of_Z t / g_frequency a)%num;
                    cf_couponPayment := g_periodicCoupon a;
                    cf_principalPayment := principal;
                    cf_totalCashFlow := (g_periodicCoupon a + principal)%num |})
            (seqZ 1 (Z.of_nat (trips periods 1)))).
Proof.
  intros periods Hfin Hfuel. unfold generateCashFlows. fold periods.
  rewrite (for_loop_run _ _ Hfin _ fuel 1%Z _ eq_refl Hfuel).
  by rewrite iter_from_push.
Qed.

Lemma generateCashFlows_integral (a : CashFlowParams) (n : Z) (fuel : nat) :
  (g_years a * g_frequency a)%num = of_Z n -> (Z.to_nat n <= fuel)%nat ->
  generateCashFlows fuel a
  = Return (purchase_entry a
            :: map (reference_entry a n) (seqZ 1 (Z.of_nat (Z.to_nat n)))).
Proof.
  intros Hn Hfuel. rewrite generateCashFlows_run; rewrite Hn; try done.
  - rewrite trips_of_Z. do 2 f_equal. apply map_ext. intros t.
    unfold reference_entry. by rewrite nseq_of_Z.
  - by rewrite trips_of_Z.
Qed.

(** C3.  When years x frequency is a positive whole number n and the loop
    has fuel, [generateCashFlows] returns exactly n+1 entries: entry 0 has
    period 0, coupon 0 and principal -bondPrice; every entry 1..n-1 has
    coupon periodicCoupon and principal 0; entry n has coupon
    periodicCoupon and principal faceValue; and every entry has
    totalCashFlow = couponPayment + principalPayment and
    yearLabel = period / frequency. *)
Theorem generateCashFlows_schedule (a : CashFlowParams) (n : Z) (fuel : nat) :
  (g_years a * g_frequency a)%num = of_Z n ->
  (0 < n)%Z ->
  (Z.to_nat n <= fuel)%nat ->
  exists cashFlows : list CashFlow,
    generateCashFlows fuel a = Return cashFlows
    /\ length cashFlows = S (Z.to_nat n)
    /\ cashFlows !! 0%nat
       = Some {| cf_period := lit 0;
                 cf_yearLabel := lit 0;
                 cf_couponPayment := lit 0;
                 cf_principalPayment := (- g_bondPrice a)%num;
                 cf_totalCashFlow := (- g_bondPrice a)%num |}
    /\ (forall t : Z, (1 <= t < n)%Z ->
          cashFlows !! Z.to_nat t
          = Some {| cf_period := of_Z t;
                    cf_yearLabel := (of_Z t / g_frequency a)%num;
                    cf_couponPayment := g_periodicCoupon a;
                    cf_principalPayment := lit 0;
                    cf_totalCashFlow := (g_periodicCoupon a + lit 0)%num |})
    /\ cashFlows !! Z.to_nat n
       = Some {| cf_period := of_Z n;
                 cf_yearLabel := (of_Z n / g_frequency a)%num;
                 cf_couponPayment := g_periodicCoupon a;
                 cf_principalPayment := g_faceValue a;
                 cf_totalCashFlow := (g_periodicCoupon a + g_faceValue a)%num |}
    /\ Forall (fun cf =>
                 cf_totalCashFlow cf
                 = (cf_couponPayment cf + cf_principalPayment cf)%num
                 /\ cf_yearLabel cf = (cf_period cf / g_frequency a)%num)
         cashFlows.
Proof.
  intros Hn Hpos Hfuel. eexists. split; [by apply generateCashFlows_integral|].
  assert (Hlook : forall t : Z, (1 <= t <= n)%Z ->
            (purchase_entry a
             :: map (reference_entry a n) (seqZ 1 (Z.of_nat (Z.to_nat n))))
              !! Z.to_nat t
            = Some (reference_entry a n t)).
  { intros t Ht. replace (Z.to_nat t) with (S (Z.to_nat (t - 1))) by lia.
    simpl. rewrite list_lookup_fmap, lookup_seqZ_lt by lia.
    simpl. do 2 f_equal. lia. }
  split; [|split; [|split; [|split]]].
  - simpl. by rewrite length_map, length_seqZ, Nat2Z.id.
  - done.
  - intros t Ht. rewrite Hlook by lia. unfold reference_entry.
    by rewrite bool_decide_eq_false_2 by lia.
  - rewrite Hlook by lia. unfold reference_entry.
    by rewrite bool_decide_eq_true_2.
  - apply Forall_cons. split.
    + unfold purchase_entry; cbn [cf_totalCashFlow cf_couponPayment
        cf_principalPayment cf_yearLabel cf_period].
      split; [by rewrite nadd_0_l|].
      unfold of_Z in Hn. apply nmul_Fin_inv in Hn as (y & f & _ & -> & Hyf).
      unfold lit. cbn [ndiv]. rewrite bool_decide_eq_false_2.
      * f_equal. symmetry. apply Qcmult_0_l.
      * intros ->. rewrite Qcmult_0_r in Hyf.
        rewrite <- Z2Qc_inj_0 in Hyf. apply Z2Qc_inj in Hyf. lia.
    + apply Forall_forall. intros cf Hcf.
      apply list_elem_of_fmap in Hcf as (t & -> & _). done.
Qed.

(** C9.  When years x frequency is a finite number q that is not whole,
    [generateCashFlows] produces floor(q) + 1 entries (only the purchase
    entry when q is negative), none of the entries pushed by the loop
    carries the redemption (their principalPayment is 0), and the periods
    field returned by [calculateBondPrice] is q itself. *)
Theorem fractional_periods_schedule (p : BondParameters)
    (periodicCoupon bondPrice : num) (q : Qc) (fuel : nat) :
  (years p * frequency p)%num = Fin q ->
  is_integral q = false ->
  (Z.to_nat (Qfloor q) <= fuel)%nat ->
  exists (cashFlows : list CashFlow) (priceData : PriceComponents),
    generateCashFlows fuel
      {| g_faceValue := faceValue p;
         g_frequency := frequency p;
         g_years := years p;
         g_periodicCoupon := periodicCoupon;
         g_bondPrice := bondPrice |}
    = Return cashFlows
    /\ length cashFlows = S (Z.to_nat (Qfloor q))
    /\ Forall (fun cf => cf_principalPayment cf = lit 0) (tail cashFlows)
    /\ calculateBondPrice fuel p = Return priceData
    /\ pc_periods priceData = Fin q
    /\ is_integral q = false.
Proof.
  intros Hq Hfrac Hfuel.
  assert (Htrips : trips (Fin q) 1 = Z.to_nat (Qfloor q)).
  { unfold trips. f_equal. lia. }
  eexists _, (reference_price p). split.
  { apply generateCashFlows_run; cbn [g_years g_frequency]; rewrite Hq;
      [done|]. by rewrite Htrips. }
  cbn [g_years g_frequency g_faceValue g_periodicCoupon]. rewrite Hq, Htrips.
  split; [by rewrite length_cons, length_map, length_seqZ, Nat2Z.id|].
  split.
  { apply Forall_forall. intros cf Hcf. cbn [tail] in Hcf.
    apply list_elem_of_fmap in Hcf as (t & -> & _).
    cbn [cf_principalPayment]. by rewrite nseq_of_Z_fractional. }
  split; [|by split; [apply Hq|]].
  apply calculateBondPrice_run; rewrite Hq; [done|].
  by rewrite Htrips.
Qed.

(** ** Classification *)

Lemma nabs_Fin (d : Qc) : nabs (Fin d) = Fin (Qcabs d).
Proof.
  unfold nabs. case_bool_decide as Hd; f_equal; symmetry.
  - apply Qcabs_neg. by apply Qclt_le_weak.
  - apply Qcabs_pos. by apply Qcnot_lt_le.
Qed.

Lemma analyzeBondType_Fin (bp fv tol : Qc) :
  analyzeBondType (Fin bp) (Fin fv) (Some (Fin tol))
  = if bool_decide (Qcabs (bp - fv) < tol)%Qc then
      {| bt_type := par; bt_description := "Par bond";
         bt_difference := lit 0 |}
    else if bool_decide (fv < bp)%Qc then
      {| bt_type := premium; bt_description := "Premium bond";
         bt_difference := Fin (bp - fv) |}
    else
      {| bt_type := discount; bt_description := "Discount bond";
         bt_difference := Fin (fv - bp) |}.
Proof.
  unfold analyzeBondType, ngt, nsub. cbn [from_option id nneg nadd].
  change (bp + - fv)%Qc with (bp - fv)%Qc.
  rewrite nabs_Fin. cbn [nlt lit].
  case_bool_decide as Hpar; [done|].
  rewrite (bool_decide_ext (Q2Qc 0 < bp - fv)%Qc (fv < bp)%Qc)
    by (symmetry; apply Qclt_minus_iff).
  case_bool_decide as Hprem; [done|].
  do 2 f_equal. rewrite Qcabs_neg.
  - ring.
  - apply Qcnot_lt_le. intros H.
    by apply Hprem, (proj2 (Qclt_minus_iff fv bp)).
Qed.

(** C5.  For finite bondPrice, faceValue and tolerance, [analyzeBondType]
    returns par with difference 0 when |bondPrice - faceValue| < tolerance,
    otherwise premium with difference bondPrice - faceValue when
    bondPrice > faceValue, otherwise discount with difference
    faceValue - bondPrice; the reported difference is never negative; a call
    without tolerance uses 0.01; and the four sample calls give par, par,
    premium 5 and discount 5. *)
Theorem analyzeBondType_rule (bp fv tol : Qc) :
  analyzeBondType (Fin bp) (Fin fv) (Some (Fin tol))
  = (if bool_decide (Qcabs (bp - fv) < tol)%Qc then
       {| bt_type := par; bt_description := "Par bond";
          bt_difference := lit 0 |}
     else if bool_decide (fv < bp)%Qc then
       {| bt_type := premium; bt_description := "Premium bond";
          bt_difference := Fin (bp - fv) |}
     else
       {| bt_type := discount; bt_description := "Discount bond";
          bt_difference := Fin (fv - bp) |})
  /\ (exists d : Qc,
        bt_difference (analyzeBondType (Fin bp) (Fin fv) (Some (Fin tol)))
        = Fin d /\ (0 <= d)%Qc)
  /\ analyzeBondType (Fin bp) (Fin fv) None
     = analyzeBondType (Fin bp) (Fin fv) (Some (lit 0.01))
  /\ analyzeBondType (lit 100) (lit 100) None
     = {| bt_type := par; bt_description := "Par bond";
          bt_difference := lit 0 |}
  /\ analyzeBondType (lit 100.005) (lit 100) (Some (lit 0.01))
     = {| bt_type := par; bt_description := "Par bond";
          bt_difference := lit 0 |}
  /\ analyzeBondType (lit 105) (lit 100) None
     = {| bt_type := premium; bt_description := "Premium bond";
          bt_difference := lit 5 |}
  /\ analyzeBondType (lit 95) (lit 100) None
     = {| bt_type := discount; bt_description := "Discount bond";
          bt_difference := lit 5 |}.
Proof.
  split; [apply analyzeBondType_Fin|].
  split.
  { rewrite analyzeBondType_Fin. repeat case_bool_decide; eexists; (split; [done|]).
    - done.
    - apply Qclt_le_weak. by apply (proj1 (Qclt_minus_iff fv bp)).
    - apply (proj1 (Qcle_minus_iff bp fv)). by apply Qcnot_lt_le. }
  split; [done|].
  repeat split; by apply (bool_decide_unpack _); vm_compute.
Qed.

(** C10.  Whatever [calculateBondMetrics] returns, its classification is
    [analyzeBondType] of the returned price and the input face value called
    without a tolerance, that is, with the default tolerance 0.01; the
    orchestrator takes no tolerance of its own. *)
Theorem calculateBondMetrics_default_tolerance (params : BondParameters)
    (fuel : nat) (r : ValuationResult) :
  calculateBondMetrics fuel params = Return r ->
  vr_bondType r = analyzeBondType (vr_bondPrice r) (faceValue params) None
  /\ vr_bondType r
     = analyzeBondType (vr_bondPrice r) (faceValue params) (Some (lit 0.01)).
Proof.
  unfold calculateBondMetrics. intros H.
  destruct (calculateBondPrice fuel params) as [priceData| |]; try done.
  cbn [mbind outcome_bind] in H.
  destruct (generateCashFlows _ _) as [cashFlows| |]; try done.
  cbn [mbind outcome_bind] in H. injection H as <-. done.
Qed.

(** ** Errors *)

Lemma for_loop_no_throw {A : Type} (body : Z -> A -> A) (periods : num)
    (fuel : nat) :
  forall (t : Z) (acc : A) (e : exn),
    for_loop fuel periods body t acc <> Throw e.
Proof.
  induction fuel as [|fuel IH]; intros t acc e; simpl; case_match; done.
Qed.

Lemma calculateBondPrice_no_throw (p : BondParameters) (fuel : nat) (e : exn) :
  calculateBondPrice fuel p <> Throw e.
Proof.
  unfold calculateBondPrice.
  destruct (for_loop _ _ _ _ _) as [x|e'|] eqn:Hloop; try done.
  by apply for_loop_no_throw in Hloop.
Qed.

Lemma calculateBondMetrics_no_throw (p : BondParameters) (fuel : nat)
    (e : exn) :
  calculateBondMetrics fuel p <> Throw e.
Proof.
  unfold calculateBondMetrics.
  destruct (calculateBondPrice fuel p) as [pc|e'|] eqn:Hpc; try done.
  - cbn [mbind outcome_bind].
    destruct (generateCashFlows _ _) as [cfs|e'|] eqn:Hcfs; try done.
    by apply for_loop_no_throw in Hcfs.
  - by apply calculateBondPrice_no_throw in Hpc.
Qed.

Lemma calculateBondMetrics_returns (p : BondParameters) (fuel : nat) :
  (years p * frequency p)%num <> PInf ->
  (trips (years p * frequency p) 1 <= fuel)%nat ->
  exists r : ValuationResult, calculateBondMetrics fuel p = Return r.
Proof.
  intros Hfin Hfuel. unfold calculateBondMetrics.
  rewrite (calculateBondPrice_run p fuel Hfin Hfuel).
  cbn [mbind outcome_bind].
  rewrite generateCashFlows_run by done.
  cbn [mbind outcome_bind]. by eexists.
Qed.

Lemma ndiv_zero_not_finite (x : num) : is_finite (x / Fin 0%Qc)%num = false.
Proof.
  destruct x as [a| | |]; try done. unfold ndiv.
  rewrite bool_decide_eq_true_2 by done.
  unfold negative_sign, inf_of_sign. by repeat case_match.
Qed.

Lemma nadd_not_finite_r (x y : num) :
  is_finite y = false -> is_finite (x + y)%num = false.
Proof. by destruct x, y. Qed.

Lemma Math_pow_zero_base (e : Qc) :
  (0 < e)%Qc -> Math_pow (Fin 0%Qc) (Fin e) = Fin 0%Qc.
Proof.
  intros He. unfold Math_pow.
  rewrite bool_decide_eq_false_2
    by (intros ->; by apply (Qclt_not_eq _ _ He)).
  by rewrite !bool_decide_eq_true_2.
Qed.

Lemma one_plus_minus_one : (lit 1 + lit (-1))%num = Fin 0%Qc.
Proof. unfold lit; cbn [nadd]. f_equal; by apply Qc_is_canon. Qed.

(** C4 (as the code has it).  No input makes [calculateBondPrice] or
    [calculateBondMetrics] raise an error.  When the periodic yield is
    exactly -1 and years x frequency is a positive finite number, both
    return normally: the price is not finite (an infinity or NaN), and
    [calculateBondMetrics] returns a complete result carrying it. *)
Theorem periodic_yield_minus_one_propagates (p : BondParameters) (q : Qc)
    (fuel : nat) :
  (ytm p / lit 100 / frequency p)%num = lit (-1) ->
  (years p * frequency p)%num = Fin q ->
  (0 < q)%Qc ->
  (trips (Fin q) 1 <= fuel)%nat ->
  (exists priceData : PriceComponents,
     calculateBondPrice fuel p = Return priceData
     /\ is_finite (pc_price priceData) = false)
  /\ (exists r : ValuationResult,
        calculateBondMetrics fuel p = Return r
        /\ is_finite (vr_bondPrice r) = false)
  /\ (forall (p' : BondParameters) (fuel' : nat) (e : exn),
        calculateBondPrice fuel' p' <> Throw e
        /\ calculateBondMetrics fuel' p' <> Throw e).
Proof.
  intros Hy Hq Hpos Hfuel.
  assert (Hrun : calculateBondPrice fuel p = Return (reference_price p)).
  { apply calculateBondPrice_run; rewrite Hq; done. }
  assert (Hinf : is_finite (pc_price (reference_price p)) = false).
  { unfold reference_price; cbn [pc_price]. apply nadd_not_finite_r.
    rewrite Hy, Hq, one_plus_minus_one, Math_pow_zero_base by done.
    apply ndiv_zero_not_finite. }
  split; [by eexists|]. split.
  - unfold calculateBondMetrics. rewrite Hrun. cbn [mbind outcome_bind].
    rewrite generateCashFlows_run;
      cbn [g_years g_frequency]; rewrite Hq; try done.
    cbn [mbind outcome_bind]. by eexists.
  - intros p' fuel' e. split;
      [apply calculateBondPrice_no_throw | apply calculateBondMetrics_no_throw].
Qed.

(** ** Exact arithmetic on finite values *)

Lemma sum_1_to_Fin (f : Z -> num) (g : Z -> Qc) (n : nat) :
  (forall t : Z, (1 <= t <= Z.of_nat n)%Z -> f t = Fin (g t)) ->
  sum_1_to n f = Fin (Qsum_1_to n g).
Proof.
  induction n as [|n IH]; intros H; [done|].
  cbn [sum_1_to Qsum_1_to]. rewrite IH by (intros; apply H; lia).
  by rewrite H by lia.
Qed.

Lemma Qsum_1_to_ext (g1 g2 : Z -> Qc) (n : nat) :
  (forall t : Z, (1 <= t <= Z.of_nat n)%Z -> g1 t = g2 t) ->
  Qsum_1_to n g1 = Qsum_1_to n g2.
Proof.
  induction n as [|n IH]; intros H; [done|].
  cbn [Qsum_1_to]. rewrite IH by (intros; apply H; lia).
  by rewrite H by lia.
Qed.

Lemma Qcpower_nonzero (b : Qc) (n : nat) : b <> 0%Qc -> (b ^ n)%Qc <> 0%Qc.
Proof.
  intros Hb. induction n as [|n IH]; simpl; [done|].
  intros H. by apply Qcmult_integral in H as [H|H].
Qed.

Lemma Qcpower_positive (b : Qc) (n : nat) : (0 < b)%Qc -> (0 < b ^ n)%Qc.
Proof.
  intros Hb. induction n as [|n IH]; simpl; [done|].
  by apply Qcmult_pos_pos.
Qed.

Lemma ndiv_Fin (a b : Qc) : b <> 0%Qc -> (Fin a / Fin b)%num = Fin (a / b).
Proof. intros Hb. unfold ndiv. by rewrite bool_decide_eq_false_2. Qed.

Lemma hundred_nonzero : Q2Qc 100 <> 0%Qc.
Proof. intros H. by apply Q2Qc_eq_iff in H. Qed.

Lemma of_Z_nonzero (t : Z) : (t <> 0)%Z -> Qc_of_Z t <> 0%Qc.
Proof. intros Ht H. rewrite <- Z2Qc_inj_0 in H. by apply Z2Qc_inj in H. Qed.

Lemma Math_pow_of_Z (b : Qc) (t : Z) :
  b <> 0%Qc -> (0 < t)%Z ->
  Math_pow (Fin b) (of_Z t) = Fin (b ^ Z.to_nat t).
Proof.
  intros Hb Ht. unfold Math_pow, of_Z.
  rewrite (bool_decide_eq_false_2 (Qc_of_Z t = _))
    by (apply of_Z_nonzero; lia).
  rewrite (bool_decide_eq_false_2 (b = _)) by done.
  rewrite is_integral_of_Z, Qfloor_of_Z. by destruct t.
Qed.

Lemma Math_pow_neg_of_Z (b : Qc) (t : Z) :
  b <> 0%Qc -> (0 < t)%Z ->
  Math_pow (Fin b) (- of_Z t) = Fin (/ b ^ Z.to_nat t).
Proof.
  intros Hb Ht. unfold Math_pow, of_Z. cbn [nneg].
  rewrite <- Z2Qc_inj_opp.
  rewrite (bool_decide_eq_false_2 (Qc_of_Z (- t) = _))
    by (apply of_Z_nonzero; lia).
  rewrite (bool_decide_eq_false_2 (b = _)) by done.
  rewrite is_integral_of_Z, Qfloor_of_Z. by destruct t.
Qed.

Lemma Math_pow_neg_zero (x : num) : Math_pow x (- lit 0) = Fin 1%Qc.
Proof.
  unfold Math_pow, lit. cbn [nneg].
  by rewrite bool_decide_eq_true_2 by (by apply Qc_is_canon).
Qed.

Lemma annuity_factor_positive (b : Qc) (n : nat) :
  (0 < b)%Qc -> (0 < n)%nat -> (0 < annuity_factor b n)%Qc.
Proof.
  intros Hb Hn. unfold annuity_factor.
  induction n as [|n IH]; [lia|]. cbn [Qsum_1_to].
  apply Qcplus_nonneg_pos.
  - destruct n as [|n]; [done|]. apply Qclt_le_weak, IH. lia.
  - by apply Qcinv_pos, Qcpower_positive.
Qed.

(** The pricing identity: price - faceValue = (coupon - faceValue x yield)
    x annuity factor. *)
Lemma price_minus_face (c F b : Qc) (n : nat) :
  b <> 0%Qc ->
  (coupons_value c b n + F / b ^ n
   = F + (c - F * (b - 1)) * annuity_factor b n)%Qc.
Proof.
  intros Hb. unfold coupons_value, annuity_factor.
  induction n as [|n IH].
  - cbn [Qsum_1_to Qcpower]. field. apply Q_apart_0_1.
  - cbn [Qsum_1_to]. rewrite Nat2Z.id.
    pose proof (Qcpower_nonzero b n Hb) as HB.
    set (S0 := Qsum_1_to n (fun t => (c / b ^ Z.to_nat t)%Qc)) in *.
    set (A0 := Qsum_1_to n (fun t => (/ b ^ Z.to_nat t)%Qc)) in *.
    cbn [Qcpower]. set (B := (b ^ n)%Qc) in *.
    assert (HS : S0 = (F + (c - F * (b - 1)) * A0 - F / B)%Qc)
      by (rewrite <- IH; field; done).
    rewrite HS. field. by split.
Qed.

Lemma foldl_Fin (f : Z -> num) (g : Z -> Qc) (m : nat) (a0 : Qc) :
  (forall t : Z, (1 <= t <= Z.of_nat m)%Z -> f t = Fin (g t)) ->
  foldl (fun acc t => (acc + f t)%num) (Fin a0) (seqZ 1 (Z.of_nat m))
  = Fin (a0 + Qsum_1_to m g).
Proof.
  induction m as [|m IH]; intros H.
  - simpl. f_equal. ring.
  - rewrite seqZ_S, foldl_snoc, IH by (intros; apply H; lia).
    rewrite H by lia. cbn [nadd Qsum_1_to]. f_equal.
    replace (Z.of_nat (S m)) with (1 + Z.of_nat m)%Z by lia. ring.
Qed.

(** ** A well-formed bond: finite inputs, a whole number of periods *)

Section FiniteBond.

Variables F cr yt yr fr : Qc.
Variable n : Z.

Let p : BondParameters := finite_bond F cr yt yr fr.
Let c : Qc := (F * (cr / Q2Qc 100 / fr))%Qc.
Let y : Qc := (yt / Q2Qc 100 / fr)%Qc.
Let b : Qc := (1 + y)%Qc.
Let N : nat := Z.to_nat n.

Hypothesis Hperiods : (yr * fr)%Qc = Qc_of_Z n.
Hypothesis Hn : (0 < n)%Z.
Hypothesis Hb : b <> 0%Qc.

Lemma frequency_nonzero : fr <> 0%Qc.
Proof.
  intros ->. rewrite Qcmult_0_r in Hperiods.
  symmetry in Hperiods. by apply of_Z_nonzero in Hperiods; [|lia].
Qed.

Lemma reference_price_finite :
  reference_price p
  = {| pc_price := Fin (coupons_value c b N + F / b ^ N);
       pc_pvCoupons := Fin (coupons_value c b N);
       pc_pvFaceValue := Fin (F / b ^ N);
       pc_periodicCoupon := Fin c;
       pc_periodicYield := Fin y;
       pc_periods := of_Z n |}.
Proof.
  pose proof frequency_nonzero as Hfr.
  pose proof hundred_nonzero as H100.
  unfold reference_price, p, finite_bond, lit.
  cbn [faceValue couponRate ytm years frequency].
  rewrite !ndiv_Fin by done. cbn [nmul nadd]. rewrite Hperiods.
  fold (of_Z n). rewrite trips_of_Z. fold c y b N.
  rewrite (sum_1_to_Fin _ (fun t => (c / b ^ Z.to_nat t)%Qc)).
  - rewrite Math_pow_of_Z, ndiv_Fin by (done || by apply Qcpower_nonzero).
    done.
  - intros t Ht.
    by rewrite Math_pow_of_Z, ndiv_Fin
      by (done || lia || by apply Qcpower_nonzero).
Qed.

Lemma net_present_value_finite :
  net_present_value (Fin y)
    (purchase_entry (schedule_params p (reference_price p))
     :: map (reference_entry (schedule_params p (reference_price p)) n)
          (seqZ 1 (Z.of_nat N)))
  = Fin 0%Qc.
Proof.
  unfold net_present_value. cbn [foldl]. rewrite foldl_fmap.
  unfold purchase_entry, schedule_params.
  cbn [cf_totalCashFlow cf_period g_bondPrice].
  rewrite reference_price_finite. cbn [pc_price pc_periodicCoupon].
  rewrite Math_pow_neg_zero. unfold lit. cbn [nneg nmul nadd]. fold b.
  rewrite (foldl_Fin _
    (fun t => ((c + (if bool_decide (t = n) then F else 0)) / b ^ Z.to_nat t)%Qc)).
  - f_equal. destruct N as [|m] eqn:HN; [lia|]. cbn [Qsum_1_to].
    rewrite (Qsum_1_to_ext _ (fun t => (c / b ^ Z.to_nat t)%Qc)).
    + replace (Z.of_nat (S m)) with n by lia.
      rewrite bool_decide_eq_true_2 by done.
      unfold coupons_value. cbn [Qsum_1_to].
      replace (Z.of_nat (S m)) with n by lia.
      replace (Z.to_nat n) with (S m) by lia. unfold Qcdiv. ring.
    + intros t Ht. rewrite bool_decide_eq_false_2 by lia.
      unfold Qcdiv. ring.
  - intros t Ht. unfold reference_entry.
    cbn [cf_totalCashFlow cf_period g_periodicCoupon g_faceValue faceValue].
    rewrite Math_pow_neg_of_Z by (done || lia).
    case_bool_decide; done.
Qed.

Variable fuel : nat.
Hypothesis Hfuel : (Z.to_nat n <= fuel)%nat.

Lemma calculateBondPrice_finite :
  calculateBondPrice fuel p = Return (reference_price p).
Proof.
  apply calculateBondPrice_run; unfold p, finite_bond;
    cbn [years frequency nmul]; rewrite Hperiods; fold (of_Z n);
    [done | by rewrite trips_of_Z].
Qed.

Lemma schedule_finite :
  generateCashFlows fuel (schedule_params p (reference_price p))
  = Return
      (purchase_entry (schedule_params p (reference_price p))
       :: map (reference_entry (schedule_params p (reference_price p)) n)
            (seqZ 1 (Z.of_nat N))).
Proof.
  apply generateCashFlows_integral; [|done].
  unfold schedule_params, p, finite_bond.
  cbn [g_years g_frequency years frequency nmul].
  by rewrite Hperiods.
Qed.

End FiniteBond.

Lemma growth_factor_positive (y : Qc) : (- 1 < y)%Qc -> (0 < 1 + y)%Qc.
Proof.
  intros Hy. apply (Qcplus_lt_mono_l _ _ 1) in Hy.
  by replace (1 + - 1)%Qc with 0%Qc in Hy by ring.
Qed.

Lemma growth_factor_nonzero (y : Qc) : (- 1 < y)%Qc -> (1 + y)%Qc <> 0%Qc.
Proof.
  intros Hy H. apply growth_factor_positive in Hy.
  rewrite H in Hy. by apply Qclt_not_eq in Hy.
Qed.

(** C2.  For finite parameters with years x frequency a positive whole
    number and periodicYield > -1, the schedule that [generateCashFlows]
    builds from the price and coupon computed by [calculateBondPrice] has
    net present value zero at the periodic yield: the totalCashFlow of every
    entry k = 0..periods times (1+periodicYield)^(-k) sums to 0 (exactly, in
    exact arithmetic). *)
Theorem schedule_net_present_value_zero (F cr yt yr fr : Qc) (n : Z)
    (fuel : nat) :
  (yr * fr)%Qc = Qc_of_Z n ->
  (0 < n)%Z ->
  (- 1 < yt / Q2Qc 100 / fr)%Qc ->
  (Z.to_nat n <= fuel)%nat ->
  exists (priceData : PriceComponents) (cashFlows : list CashFlow),
    calculateBondPrice fuel (finite_bond F cr yt yr fr) = Return priceData
    /\ pc_periodicYield priceData = Fin (yt / Q2Qc 100 / fr)
    /\ generateCashFlows fuel
         {| g_faceValue := Fin F;
            g_frequency := Fin fr;
            g_years := Fin yr;
            g_periodicCoupon := pc_periodicCoupon priceData;
            g_bondPrice := pc_price priceData |}
       = Return cashFlows
    /\ length cashFlows = S (Z.to_nat n)
    /\ net_present_value (pc_periodicYield priceData) cashFlows = lit 0.
Proof.
  intros Hperiods Hn Hy Hfuel.
  apply growth_factor_nonzero in Hy.
  eexists _, _.
  split; [eapply calculateBondPrice_finite; eassumption|].
  split; [by rewrite (reference_price_finite F cr yt yr fr n)|].
  split; [eapply schedule_finite; eassumption|].
  split; [by rewrite length_cons, length_map, length_seqZ, Nat2Z.id|].
  rewrite (reference_price_finite F cr yt yr fr n) at 1 by done.
  cbn [pc_periodicYield].
  by apply (net_present_value_finite F cr yt yr fr n).
Qed.

Lemma premium_sign (F k W price : Qc) :
  price = (F + k * W)%Qc -> (0 < W)%Qc ->
  ((0 < k)%Qc -> (F < price)%Qc)
  /\ ((k < 0)%Qc -> (price < F)%Qc)
  /\ (k = 0%Qc -> price = F).
Proof.
  intros -> HW. split; [|split].
  - intros Hk. rewrite <- (Qcplus_0_r F) at 1.
    apply Qcplus_lt_mono_l. by apply Qcmult_pos_pos.
  - intros Hk. rewrite <- (Qcplus_0_r F) at 2.
    apply Qcplus_lt_mono_l. rewrite <- (Qcmult_0_l W).
    by apply Qcmult_lt_mono_pos_r.
  - intros ->. ring.
Qed.

(** C6 (as the code has it).  For faceValue > 0, couponRate >= 0,
    years > 0 and frequency among 1, 2, 4, 12, when in addition
    years x frequency is a whole number and periodicYield > -1: the price
    computed by [calculateBondPrice] is above faceValue whenever
    couponRate > ytm, below faceValue whenever couponRate < ytm, and equal to
    faceValue (exactly, in exact arithmetic) when ytm = couponRate. *)
Theorem price_against_face_value (F cr yt yr fr : Qc) (n : Z) (fuel : nat) :
  (0 < F)%Qc ->
  (0 <= cr)%Qc ->
  (0 < yr)%Qc ->
  fr = Q2Qc 1 \/ fr = Q2Qc 2 \/ fr = Q2Qc 4 \/ fr = Q2Qc 12 ->
  (yr * fr)%Qc = Qc_of_Z n ->
  (- 1 < yt / Q2Qc 100 / fr)%Qc ->
  (Z.to_nat n <= fuel)%nat ->
  exists (priceData : PriceComponents) (price : Qc),
    calculateBondPrice fuel (finite_bond F cr yt yr fr) = Return priceData
    /\ pc_price priceData = Fin price
    /\ ((yt < cr)%Qc -> (F < price)%Qc)
    /\ ((cr < yt)%Qc -> (price < F)%Qc)
    /\ (yt = cr -> price = F).
Proof.
  intros HF Hcr Hyr Hfreq Hperiods Hy Hfuel.
  assert (Hfr : (0 < fr)%Qc) by (by destruct Hfreq as [->|[->|[->| ->]]]).
  assert (Hn : (0 < n)%Z).
  { apply Z2Qc_inj_lt. rewrite Z2Qc_inj_0, <- Hperiods.
    by apply Qcmult_pos_pos. }
  pose proof (growth_factor_positive _ Hy) as Hb.
  pose proof (growth_factor_nonzero _ Hy) as Hb0.
  assert (Hfr0 : fr <> 0%Qc) by (intros ->; by apply Qclt_not_eq in Hfr).
  eexists _, _.
  split; [eapply calculateBondPrice_finite; eassumption|].
  split; [by rewrite (reference_price_finite F cr yt yr fr n)|].
  set (W := (F / Q2Qc 100 / fr
             * annuity_factor (1 + yt / Q2Qc 100 / fr) (Z.to_nat n))%Qc).
  assert (HW : (0 < W)%Qc).
  { apply Qcmult_pos_pos; [|apply annuity_factor_positive; [done|lia]].
    unfold Qcdiv. repeat apply Qcmult_pos_pos; try done.
    by apply Qcinv_pos. }
  pose proof hundred_nonzero as H100.
  assert (Hprice :
    (coupons_value (F * (cr / Q2Qc 100 / fr)) (1 + yt / Q2Qc 100 / fr)
       (Z.to_nat n)
     + F / (1 + yt / Q2Qc 100 / fr) ^ Z.to_nat n
     = F + (cr - yt) * W)%Qc).
  { rewrite price_minus_face by done. unfold W. field. done. }
  destruct (premium_sign F (cr - yt) W _ Hprice HW)
    as (Hprem & Hdisc & Hpar).
  split; [|split].
  - intros H. by apply Hprem, (proj1 (Qclt_minus_iff yt cr)).
  - intros H. apply Hdisc.
    apply (Qcplus_lt_mono_r _ _ (- yt)) in H.
    by rewrite Qcplus_opp_r in H.
  - intros ->. apply Hpar. ring.
Qed.

(** ** The store and the input pipeline *)

Lemma Object_assign_listeners (updates : list update) (s : State) :
  st_listeners (Object_assign s updates) = st_listeners s.
Proof.
  unfold Object_assign. revert s.
  induction updates as [|u updates IH]; intros s; [done|].
  simpl. rewrite IH. by destruct u as [[]| | |].
Qed.

Lemma setState_spec (updates : list update) (w : Store) :
  state (setState updates w) = Object_assign (state w) updates
  /\ notified (setState updates w)
     = notified w
       ++ map (fun fn => (fn, Object_assign (state w) updates))
            (st_listeners (state w)).
Proof.
  unfold setState; cbn [state notified].
  by rewrite Object_assign_listeners.
Qed.

Lemma hasErrors_insert (errors : gmap string string) (k e : string) :
  hasErrors (<[k := e]> errors) = true.
Proof.
  unfold hasErrors. rewrite bool_decide_eq_false_2; [done|].
  apply insert_non_empty.
Qed.

(** On a validation error the callback stops after publishing the error:
    whatever result the store held stays in place. *)
Lemma debouncedUpdate_error_keeps_result (fuel : nat) (field : Field)
    (value : num) (w : Store) (msg : string) :
  validateField field value = Some msg ->
  exists w' : Store,
    debouncedUpdate fuel field value w = Return w'
    /\ state w'
       = Object_assign (state w)
           [SetField field value;
            SetErrors (<[field_key field := msg]> (st_errors (state w)))]
    /\ st_errors (state w') !! field_key field = Some msg
    /\ hasErrors (st_errors (state w')) = true
    /\ st_bondCalculations (state w') = st_bondCalculations (state w).
Proof.
  intros Hv. unfold debouncedUpdate. rewrite Hv, hasErrors_insert.
  cbn [negb]. eexists. split; [done|]. split; [done|].
  unfold setState, Object_assign; cbn [state foldl].
  destruct field; cbn [assign1 st_errors st_bondCalculations];
    by rewrite lookup_insert_eq, hasErrors_insert.
Qed.

(** [updateCalculations] returns as soon as the valuation of the stored
    inputs does: years x frequency other than +Infinity, and fuel for the
    loops. *)
Lemma updateCalculations_returns (fuel : nat) (w : Store) :
  (st_years (state w) * st_frequency (state w))%num <> PInf ->
  (trips (st_years (state w) * st_frequency (state w)) 1 <= fuel)%nat ->
  exists w' : Store, updateCalculations fuel w = Return w'.
Proof.
  intros Hfin Hfuel. unfold updateCalculations.
  destruct (hasErrors _); [by eexists|].
  fold (params_of_state (state w)).
  destruct (calculateBondMetrics_returns (params_of_state (state w)) fuel
              Hfin Hfuel) as [r ->].
  by eexists.
Qed.

(** C8 (as the code has it).  Every [setState] merges the partial update
    into the state and then calls every subscriber, in registration order,
    with the merged state; [subscribe] registers at the end of that order.
    When a debounced field update passes validation and leaves no error
    active, and years x frequency of the edited inputs is not +Infinity,
    the callback returns and has published in two such steps: first the new
    field and error map, with the previous bondCalculations still in place,
    then the recomputed bondCalculations. *)
Theorem merge_then_notify_in_two_steps (fuel : nat) (field : Field)
    (value : num) (w : Store) :
  validateField field value = None ->
  hasErrors (delete (field_key field) (st_errors (state w))) = false ->
  (st_years (Object_assign (state w) [SetField field value])
   * st_frequency (state w))%num <> PInf ->
  (trips (st_years (Object_assign (state w) [SetField field value])
          * st_frequency (state w)) 1 <= fuel)%nat ->
  (forall (updates : list update) (w0 : Store) (fn : listener),
     state (setState updates w0) = Object_assign (state w0) updates
     /\ notified (setState updates w0)
        = notified w0
          ++ map (fun fn => (fn, Object_assign (state w0) updates))
               (st_listeners (state w0))
     /\ st_listeners (state (subscribe fn w0))
        = st_listeners (state w0) ++ [fn])
  /\ exists (w' : Store) (s1 : State) (c : ValuationResult),
       debouncedUpdate fuel field value w = Return w'
       /\ s1 = Object_assign (state w)
                 [SetField field value;
                  SetErrors (delete (field_key field) (st_errors (state w)))]
       /\ get_field field s1 = value
       /\ st_errors s1 = delete (field_key field) (st_errors (state w))
       /\ st_bondCalculations s1 = st_bondCalculations (state w)
       /\ calculateBondMetrics fuel (params_of_state s1) = Return c
       /\ state w' = Object_assign s1 [SetBondCalculations (Some c)]
       /\ notified w'
          = notified w
            ++ map (fun fn => (fn, s1)) (st_listeners (state w))
            ++ map (fun fn => (fn, state w')) (st_listeners (state w)).
Proof.
  intros Hv Herr Hfin Hfuel. split.
  { intros updates w0 fn. by destruct (setState_spec updates w0). }
  unfold debouncedUpdate. rewrite Hv, Herr. cbn [negb].
  unfold updateCalculations.
  set (errors := delete (field_key field) (st_errors (state w))) in *.
  set (w1 := setState [SetField field value; SetErrors errors] w) in *.
  assert (He1 : st_errors (state w1) = errors) by (by destruct field).
  rewrite He1, Herr.
  fold (params_of_state (state w1)).
  assert (Hy : st_years (state w1)
               = st_years (Object_assign (state w) [SetField field value]))
    by (by destruct field).
  assert (Hf : st_frequency (state w1) = st_frequency (state w))
    by (by destruct field).
  destruct (calculateBondMetrics_returns (params_of_state (state w1)) fuel)
    as [c Hc].
  { cbn [params_of_state years frequency]. by rewrite Hy, Hf. }
  { cbn [params_of_state years frequency]. by rewrite Hy, Hf. }
  rewrite Hc.
  eexists _, (state w1), c. split; [reflexivity|].
  split; [done|]. split; [by destruct field|]. split; [done|].
  split; [by destruct field|]. split; [done|]. split; [done|].
  destruct (setState_spec [SetBondCalculations (Some c)] w1) as [-> ->].
  destruct (setState_spec [SetField field value; SetErrors errors] w)
    as [Hs1 Hn1].
  fold w1 in Hs1, Hn1.
  by rewrite Hn1, Hs1, Object_assign_listeners, <- app_assoc.
Qed.

(** ** Further properties of the engine *)

Lemma trips_step (q : Qc) (t : Z) :
  (t <= Qfloor q)%Z -> trips (Fin q) t = S (trips (Fin q) (t + 1)).
Proof. intros Ht. unfold trips. lia. Qed.

(** A loop that returns has run its body [trips] times. *)
Lemma for_loop_return_inv {A : Type} (body : Z -> A -> A) (periods : num)
    (fuel : nat) :
  forall (t : Z) (acc r : A),
    for_loop fuel periods body t acc = Return r ->
    periods <> PInf /\ r = iter_from body t (trips periods t) acc.
Proof.
  induction fuel as [|fuel IH]; intros t acc r; cbn [for_loop];
    destruct (nle (of_Z t) periods) eqn:Hle; try done.
  - intros [= <-]. destruct periods as [q| | |]; try done.
    rewrite nle_of_Z_Fin in Hle. apply bool_decide_eq_false_1 in Hle.
    split; [done|]. unfold trips.
    by replace (Z.to_nat (Qfloor q - t + 1)) with 0%nat by lia.
  - intros Hrun. apply IH in Hrun as [Hfin ->]. split; [done|].
    destruct periods as [q| | |]; try done.
    rewrite nle_of_Z_Fin in Hle. apply bool_decide_eq_true_1 in Hle.
    by rewrite (trips_step q t Hle).
  - intros [= <-]. destruct periods as [q| | |]; try done.
    rewrite nle_of_Z_Fin in Hle. apply bool_decide_eq_false_1 in Hle.
    split; [done|]. unfold trips.
    by replace (Z.to_nat (Qfloor q - t + 1)) with 0%nat by lia.
Qed.

Lemma for_loop_skip {A : Type} (body : Z -> A -> A) (periods : num)
    (fuel : nat) (t : Z) (acc : A) :
  nle (of_Z t) periods = false ->
  for_loop fuel periods body t acc = Return acc.
Proof. intros Hle. destruct fuel; cbn [for_loop]; by rewrite Hle. Qed.

(** X1.  When years x frequency is +Infinity the loops never end: for
    every amount of fuel, [calculateBondPrice], [generateCashFlows] and
    [calculateBondMetrics] are still running when it is used up. *)
Theorem infinite_periods_never_return (p : BondParameters)
    (periodicCoupon bondPrice : num) (fuel : nat) :
  (years p * frequency p)%num = PInf ->
  calculateBondPrice fuel p = OutOfFuel
  /\ generateCashFlows fuel
       {| g_faceValue := faceValue p; g_frequency := frequency p;
          g_years := years p; g_periodicCoupon := periodicCoupon;
          g_bondPrice := bondPrice |}
     = OutOfFuel
  /\ calculateBondMetrics fuel p = OutOfFuel.
Proof.
  intros Hinf.
  assert (Hprice : calculateBondPrice fuel p = OutOfFuel).
  { unfold calculateBondPrice. by rewrite Hinf, for_loop_diverges. }
  split; [done|]. split.
  - unfold generateCashFlows. cbn [g_years g_frequency].
    by rewrite Hinf, for_loop_diverges.
  - unfold calculateBondMetrics. by rewrite Hprice.
Qed.

(** X2.  When years x frequency is below 1 or NaN, neither loop runs, so
    no fuel is needed: no coupon is valued (pvCoupons is 0, the price is the
    discounted face value alone) and the schedule is the purchase entry
    alone. *)
Theorem less_than_one_period (p : BondParameters)
    (periodicCoupon bondPrice : num) (fuel : nat) :
  nle (of_Z 1) (years p * frequency p)%num = false ->
  (exists priceData : PriceComponents,
     calculateBondPrice fuel p = Return priceData
     /\ pc_pvCoupons priceData = lit 0
     /\ pc_price priceData
        = (lit 0
           + faceValue p
             / Math_pow (lit 1 + ytm p / lit 100 / frequency p)
                 (years p * frequency p))%num)
  /\ generateCashFlows fuel
       {| g_faceValue := faceValue p; g_frequency := frequency p;
          g_years := years p; g_periodicCoupon := periodicCoupon;
          g_bondPrice := bondPrice |}
     = Return
         [ {| cf_period := lit 0; cf_yearLabel := lit 0;
              cf_couponPayment := lit 0;
              cf_principalPayment := (- bondPrice)%num;
              cf_totalCashFlow := (- bondPrice)%num |} ].
Proof.
  intros Hle. split.
  - eexists. unfold calculateBondPrice.
    rewrite for_loop_skip by done. cbn [mbind outcome_bind].
    by repeat split.
  - unfold generateCashFlows. cbn [g_years g_frequency g_bondPrice].
    by rewrite for_loop_skip.
Qed.

Lemma ndiv_1_r (F : Qc) : (Fin F / Fin 1%Qc)%num = Fin F.
Proof.
  rewrite ndiv_Fin by apply Q_apart_0_1. f_equal.
  unfold Qcdiv. field. apply Q_apart_0_1.
Qed.

(** X3.  A bond of zero term (years x frequency = 0) with a finite face
    value is priced at exactly its face value whatever the coupon rate and
    the yield are, NaN included, because [Math.pow(x, 0)] is 1 for every x;
    [calculateBondMetrics] returns it with a one-entry schedule and
    classifies it as par. *)
Theorem zero_term_prices_at_face_value (p : BondParameters) (F : Qc)
    (fuel : nat) :
  (years p * frequency p)%num = lit 0 ->
  faceValue p = Fin F ->
  exists r : ValuationResult,
    calculateBondMetrics fuel p = Return r
    /\ vr_bondPrice r = Fin F
    /\ vr_pvCoupons r = lit 0
    /\ vr_cashFlows r
       = [ {| cf_period := lit 0; cf_yearLabel := lit 0;
              cf_couponPayment := lit 0;
              cf_principalPayment := Fin (- F);
              cf_totalCashFlow := Fin (- F) |} ]
    /\ bt_type (vr_bondType r) = par.
Proof.
  intros Hzero HF.
  assert (Hle : nle (of_Z 1) (years p * frequency p)%num = false)
    by (by rewrite Hzero).
  assert (Hprice : forall x : num,
            (lit 0 + faceValue p / Math_pow x (years p * frequency p))%num
            = Fin F).
  { intros x. rewrite Hzero, HF. unfold Math_pow, lit.
    rewrite bool_decide_eq_true_2 by done.
    by rewrite ndiv_1_r, nadd_0_l. }
  eexists. split.
  - unfold calculateBondMetrics, calculateBondPrice, generateCashFlows.
    cbn [g_years g_frequency].
    rewrite (for_loop_skip _ _ _ _ (lit 0)) by done.
    cbn [mbind outcome_bind]. rewrite for_loop_skip by done.
    reflexivity.
  - cbn [vr_bondPrice vr_pvCoupons vr_cashFlows vr_bondType pc_price
         g_bondPrice].
    rewrite Hprice. cbn [nneg]. repeat split; try done.
    rewrite HF.
    change (analyzeBondType (Fin F) (Fin F) None)
      with (analyzeBondType (Fin F) (Fin F) (Some (Fin (Q2Qc 0.01)))).
    rewrite analyzeBondType_Fin.
    rewrite bool_decide_eq_true_2; [done|].
    replace (F - F)%Qc with 0%Qc by ring. done.
Qed.

Lemma generateCashFlows_return_inv (a : CashFlowParams) (fuel : nat)
    (cashFlows : list CashFlow) :
  generateCashFlows fuel a = Return cashFlows ->
  cashFlows
  = purchase_entry a
    :: map (fun t =>
              let principal :=
                if nseq (of_Z t) (g_years a * g_frequency a)%num
                then g_faceValue a else lit 0 in
              {| cf_period := of_Z t;
                 cf_yearLabel := (of_Z t / g_frequency a)%num;
                 cf_couponPayment := g_periodicCoupon a;
                 cf_principalPayment := principal;
                 cf_totalCashFlow := (g_periodicCoupon a + principal)%num |})
         (seqZ 1 (Z.of_nat (trips (g_years a * g_frequency a)%num 1))).
Proof.
  unfold generateCashFlows. intros Hrun.
  apply for_loop_return_inv in Hrun as [_ ->]. by rewrite iter_from_push.
Qed.

(** X4.  Every schedule that [generateCashFlows] returns, whatever the
    inputs (fractional, negative or NaN periods included), starts with the
    purchase entry and is never empty; entry k carries period k; every
    entry's totalCashFlow is its couponPayment plus its principalPayment;
    and every later entry pays the periodic coupon, is labelled
    k / frequency, and has principal 0 or faceValue. *)
Theorem returned_schedule_shape (a : CashFlowParams) (fuel : nat)
    (cashFlows : list CashFlow) :
  generateCashFlows fuel a = Return cashFlows ->
  length cashFlows = S (trips (g_years a * g_frequency a)%num 1)
  /\ head cashFlows
     = Some {| cf_period := lit 0; cf_yearLabel := lit 0;
               cf_couponPayment := lit 0;
               cf_principalPayment := (- g_bondPrice a)%num;
               cf_totalCashFlow := (- g_bondPrice a)%num |}
  /\ forall (k : nat) (cf : CashFlow),
       cashFlows !! k = Some cf ->
       cf_period cf = of_Z (Z.of_nat k)
       /\ cf_totalCashFlow cf
          = (cf_couponPayment cf + cf_principalPayment cf)%num
       /\ ((0 < k)%nat ->
           cf_couponPayment cf = g_periodicCoupon a
           /\ cf_yearLabel cf = (of_Z (Z.of_nat k) / g_frequency a)%num
           /\ (cf_principalPayment cf = lit 0
               \/ cf_principalPayment cf = g_faceValue a)).
Proof.
  intros Hrun. apply generateCashFlows_return_inv in Hrun as ->.
  split; [by rewrite length_cons, length_map, length_seqZ, Nat2Z.id|].
  split; [done|].
  intros [|k] cf Hk.
  - injection Hk as <-. unfold purchase_entry.
    cbn [cf_period cf_totalCashFlow cf_couponPayment cf_principalPayment].
    change (Z.of_nat 0) with 0%Z.
    split; [unfold lit, of_Z; by rewrite Z2Qc_inj_0|].
    split; [by rewrite nadd_0_l | lia].
  - change ((purchase_entry a :: ?l) !! S k) with (l !! k) in Hk.
    rewrite (list_lookup_fmap _ (seqZ _ _)) in Hk.
    destruct (seqZ _ _ !! k) as [t|] eqn:Ht; [|done].
    apply lookup_seqZ in Ht as [-> _]. injection Hk as <-.
    cbn [cf_period cf_totalCashFlow cf_couponPayment cf_principalPayment
         cf_yearLabel].
    replace (1 + Z.of_nat k)%Z with (Z.of_nat (S k)) by lia.
    repeat split; try done. case_match; auto.
Qed.

(** X5.  For a whole positive number of periods, the final entry of the
    schedule is labelled with the bond's term: its period is
    years x frequency and its yearLabel is exactly years. *)
Theorem final_entry_is_at_maturity (F yr fr : Qc)
    (periodicCoupon bondPrice : num) (n : Z) (fuel : nat) :
  (yr * fr)%Qc = Qc_of_Z n ->
  (0 < n)%Z ->
  (Z.to_nat n <= fuel)%nat ->
  exists (cashFlows : list CashFlow) (final : CashFlow),
    generateCashFlows fuel
      {| g_faceValue := Fin F; g_frequency := Fin fr; g_years := Fin yr;
         g_periodicCoupon := periodicCoupon; g_bondPrice := bondPrice |}
    = Return cashFlows
    /\ last cashFlows = Some final
    /\ cf_period final = of_Z n
    /\ cf_yearLabel final = Fin yr
    /\ cf_principalPayment final = Fin F.
Proof.
  intros Hperiods Hn Hfuel.
  assert (Hfr : fr <> 0%Qc).
  { intros ->. rewrite Qcmult_0_r in Hperiods. symmetry in Hperiods.
    by apply of_Z_nonzero in Hperiods; [|lia]. }
  eexists _, _. split.
  { apply (generateCashFlows_integral _ n); [|done].
    cbn [g_years g_frequency nmul]. by rewrite Hperiods. }
  replace (Z.of_nat (Z.to_nat n)) with (Z.of_nat (S (Z.to_nat (n - 1))))
    by lia.
  rewrite seqZ_S, map_app. cbn [map].
  rewrite app_comm_cons, last_snoc. split; [done|].
  unfold reference_entry.
  cbn [cf_period cf_yearLabel cf_principalPayment g_frequency g_faceValue].
  replace (1 + Z.of_nat (Z.to_nat (n - 1)))%Z with n by lia.
  split; [done|]. split.
  - unfold of_Z. rewrite ndiv_Fin by done. f_equal.
    rewrite <- Hperiods. by apply Qcdiv_mult_l.
  - by rewrite bool_decide_eq_true_2.
Qed.

Lemma coupons_value_scale (k c b : Qc) (n : nat) :
  coupons_value (k * c) b n = (k * coupons_value c b n)%Qc.
Proof.
  unfold coupons_value. induction n as [|n IH]; cbn [Qsum_1_to]; [ring|].
  rewrite IH. unfold Qcdiv. ring.
Qed.

(** X6.  The price is proportional to the face value: for finite inputs
    with a whole positive number of periods and periodicYield other than
    -1, multiplying faceValue by k multiplies price, pvCoupons,
    pvFaceValue and periodicCoupon by k. *)
Theorem price_scales_with_face_value (F cr yt yr fr k : Qc) (n : Z)
    (fuel : nat) :
  (yr * fr)%Qc = Qc_of_Z n ->
  (0 < n)%Z ->
  (1 + yt / Q2Qc 100 / fr)%Qc <> 0%Qc ->
  (Z.to_nat n <= fuel)%nat ->
  exists P C V c : Qc,
    calculateBondPrice fuel (finite_bond F cr yt yr fr)
    = Return {| pc_price := Fin P; pc_pvCoupons := Fin C;
                pc_pvFaceValue := Fin V; pc_periodicCoupon := Fin c;
                pc_periodicYield := Fin (yt / Q2Qc 100 / fr);
                pc_periods := of_Z n |}
    /\ calculateBondPrice fuel (finite_bond (k * F) cr yt yr fr)
       = Return {| pc_price := Fin (k * P); pc_pvCoupons := Fin (k * C);
                   pc_pvFaceValue := Fin (k * V);
                   pc_periodicCoupon := Fin (k * c);
                   pc_periodicYield := Fin (yt / Q2Qc 100 / fr);
                   pc_periods := of_Z n |}.
Proof.
  intros Hperiods Hn Hb Hfuel.
  eexists _, _, _, _. split.
  - erewrite calculateBondPrice_finite by eassumption.
    by rewrite (reference_price_finite F cr yt yr fr n).
  - erewrite calculateBondPrice_finite by eassumption.
    rewrite (reference_price_finite (k * F) cr yt yr fr n) by done.
    replace (k * F * (cr / Q2Qc 100 / fr))%Qc
      with (k * (F * (cr / Q2Qc 100 / fr)))%Qc by ring.
    rewrite coupons_value_scale. do 2 f_equal; f_equal;
      unfold Qcdiv; ring.
Qed.

(** X7.  With the yield held fixed, a higher coupon rate gives a strictly
    higher price (faceValue > 0, frequency > 0, a whole positive number of
    periods, periodicYield > -1). *)
Theorem price_increases_with_coupon_rate (F cr1 cr2 yt yr fr : Qc) (n : Z)
    (fuel : nat) :
  (0 < F)%Qc ->
  (0 < fr)%Qc ->
  (yr * fr)%Qc = Qc_of_Z n ->
  (0 < n)%Z ->
  (- 1 < yt / Q2Qc 100 / fr)%Qc ->
  (Z.to_nat n <= fuel)%nat ->
  (cr1 < cr2)%Qc ->
  exists P1 P2 : Qc,
    pc_price <$> calculateBondPrice fuel (finite_bond F cr1 yt yr fr)
    = Return (Fin P1)
    /\ pc_price <$> calculateBondPrice fuel (finite_bond F cr2 yt yr fr)
       = Return (Fin P2)
    /\ (P1 < P2)%Qc.
Proof.
  intros HF Hfr Hperiods Hn Hy Hfuel Hcr.
  pose proof (growth_factor_positive _ Hy) as Hb.
  pose proof (growth_factor_nonzero _ Hy) as Hb0.
  assert (Hfr0 : fr <> 0%Qc) by (intros ->; by apply Qclt_not_eq in Hfr).
  pose proof hundred_nonzero as H100.
  eexists _, _. split; [|split].
  - erewrite calculateBondPrice_finite by eassumption.
    by rewrite (reference_price_finite F cr1 yt yr fr n).
  - erewrite calculateBondPrice_finite by eassumption.
    by rewrite (reference_price_finite F cr2 yt yr fr n).
  - set (W := (F / Q2Qc 100 / fr
               * annuity_factor (1 + yt / Q2Qc 100 / fr) (Z.to_nat n))%Qc).
    assert (HW : (0 < W)%Qc).
    { apply Qcmult_pos_pos; [|apply annuity_factor_positive; [done|lia]].
      unfold Qcdiv. repeat apply Qcmult_pos_pos; try done.
      by apply Qcinv_pos. }
    match goal with
    | |- (?p1 < ?p2)%Qc =>
        destruct (premium_sign p1 (cr2 - cr1) W p2) as (Hlt & _ & _);
          [|done|apply Hlt]
    end.
    + rewrite !price_minus_face by done. unfold W. field. done.
    + by apply (proj1 (Qclt_minus_iff cr1 cr2)).
Qed.

Lemma Qc_pos_nonzero (a : Qc) : (0 < a)%Qc -> a <> 0%Qc.
Proof. intros Ha ->. by apply Qclt_not_eq in Ha. Qed.

Lemma Qcinv_lt_antitone (a b : Qc) :
  (0 < a)%Qc -> (a < b)%Qc -> (/ b < / a)%Qc.
Proof.
  intros Ha Hab.
  assert (Hb : (0 < b)%Qc) by (by eapply Qclt_trans).
  pose proof (Qc_pos_nonzero a Ha). pose proof (Qc_pos_nonzero b Hb).
  apply (Qcmult_lt_mono_pos_r _ _ (a * b)); [by apply Qcmult_pos_pos|].
  replace (/ b * (a * b))%Qc with a by (field; done).
  replace (/ a * (a * b))%Qc with b by (field; done).
  done.
Qed.

Lemma Qcpower_lt_mono (a b : Qc) (n : nat) :
  (0 < a)%Qc -> (a < b)%Qc -> (0 < n)%nat -> (a ^ n < b ^ n)%Qc.
Proof.
  intros Ha Hab Hn.
  assert (Hb : (0 < b)%Qc) by (by eapply Qclt_trans).
  induction n as [|n IH]; [lia|]. cbn [Qcpower].
  destruct n as [|n].
  - cbn [Qcpower]. by rewrite !Qcmult_1_r.
  - apply Qclt_trans with (a * b ^ S n)%Qc.
    + apply Qcmult_lt_mono_pos_l; [done|]. apply IH. lia.
    + apply Qcmult_lt_mono_pos_r; [|done]. by apply Qcpower_positive.
Qed.

Lemma discount_factor_antitone (b1 b2 : Qc) (t : nat) :
  (0 < b1)%Qc -> (b1 < b2)%Qc -> (0 < t)%nat ->
  (/ b2 ^ t < / b1 ^ t)%Qc.
Proof.
  intros Hb1 Hb Ht. apply Qcinv_lt_antitone.
  - by apply Qcpower_positive.
  - by apply Qcpower_lt_mono.
Qed.

Lemma coupons_value_antitone (c b1 b2 : Qc) (n : nat) :
  (0 <= c)%Qc -> (0 < b1)%Qc -> (b1 < b2)%Qc ->
  (coupons_value c b2 n <= coupons_value c b1 n)%Qc.
Proof.
  intros Hc Hb1 Hb. unfold coupons_value.
  induction n as [|n IH]; cbn [Qsum_1_to]; [apply Qcle_refl|].
  apply Qcplus_le_compat; [done|]. rewrite Nat2Z.id. unfold Qcdiv.
  apply Qcmult_le_mono_nonneg_l; [done|].
  apply Qclt_le_weak, discount_factor_antitone; [done..|lia].
Qed.

Lemma periodic_rate_mono (r1 r2 fr : Qc) :
  (0 < fr)%Qc -> (r1 < r2)%Qc ->
  (r1 / Q2Qc 100 / fr < r2 / Q2Qc 100 / fr)%Qc.
Proof.
  intros Hfr Hr. unfold Qcdiv.
  apply Qcmult_lt_mono_pos_r; [by apply Qcinv_pos|].
  by apply Qcmult_lt_mono_pos_r.
Qed.

(** X8.  With the coupon held fixed, a higher yield gives a strictly lower
    price (faceValue > 0, couponRate >= 0, frequency > 0, a whole positive
    number of periods, periodicYield > -1 for the lower yield). *)
Theorem price_decreases_with_yield (F cr yt1 yt2 yr fr : Qc) (n : Z)
    (fuel : nat) :
  (0 < F)%Qc ->
  (0 <= cr)%Qc ->
  (0 < fr)%Qc ->
  (yr * fr)%Qc = Qc_of_Z n ->
  (0 < n)%Z ->
  (- 1 < yt1 / Q2Qc 100 / fr)%Qc ->
  (Z.to_nat n <= fuel)%nat ->
  (yt1 < yt2)%Qc ->
  exists P1 P2 : Qc,
    pc_price <$> calculateBondPrice fuel (finite_bond F cr yt1 yr fr)
    = Return (Fin P1)
    /\ pc_price <$> calculateBondPrice fuel (finite_bond F cr yt2 yr fr)
       = Return (Fin P2)
    /\ (P2 < P1)%Qc.
Proof.
  intros HF Hcr Hfr Hperiods Hn Hy1 Hfuel Hyt.
  pose proof (periodic_rate_mono _ _ _ Hfr Hyt) as Hy.
  assert (Hy2 : (- 1 < yt2 / Q2Qc 100 / fr)%Qc) by (by eapply Qclt_trans).
  pose proof (growth_factor_positive _ Hy1) as Hb1.
  pose proof (growth_factor_nonzero _ Hy1) as Hb10.
  pose proof (growth_factor_nonzero _ Hy2) as Hb20.
  assert (Hb : (1 + yt1 / Q2Qc 100 / fr < 1 + yt2 / Q2Qc 100 / fr)%Qc)
    by (by apply Qcplus_lt_mono_l).
  assert (Hc : (0 <= F * (cr / Q2Qc 100 / fr))%Qc).
  { apply Qcmult_nonneg_nonneg; [by apply Qclt_le_weak|].
    unfold Qcdiv. repeat apply Qcmult_nonneg_nonneg; try done;
      by apply Qclt_le_weak, Qcinv_pos. }
  eexists _, _. split; [|split].
  - erewrite calculateBondPrice_finite by eassumption.
    by rewrite (reference_price_finite F cr yt1 yr fr n).
  - erewrite calculateBondPrice_finite by eassumption.
    by rewrite (reference_price_finite F cr yt2 yr fr n).
  - eapply Qcle_lt_trans.
    + apply Qcplus_le_mono_r. by apply coupons_value_antitone.
    + apply Qcplus_lt_mono_l. unfold Qcdiv.
      apply Qcmult_lt_mono_pos_l; [done|].
      apply discount_factor_antitone; [done..|lia].
Qed.

Lemma coupons_value_undiscounted (c : Qc) (n : nat) :
  coupons_value c 1 n = (Qc_of_Z (Z.of_nat n) * c)%Qc.
Proof.
  unfold coupons_value. induction n as [|n IH]; cbn [Qsum_1_to].
  - change (Z.of_nat 0) with 0%Z. rewrite Z2Qc_inj_0. ring.
  - rewrite IH, Qcpower_1.
    replace (Z.of_nat (S n)) with (Z.of_nat n + 1)%Z by lia.
    rewrite Z2Qc_inj_add, Z2Qc_inj_1. field. apply Q_apart_0_1.
Qed.

(** X9.  At a yield of exactly 0 nothing is discounted: for a whole
    positive number n of periods, pvCoupons is n times the periodic coupon,
    pvFaceValue is the face value, and the price is their sum. *)
Theorem zero_yield_price_is_undiscounted (F cr yr fr : Qc) (n : Z)
    (fuel : nat) :
  (yr * fr)%Qc = Qc_of_Z n ->
  (0 < n)%Z ->
  (Z.to_nat n <= fuel)%nat ->
  exists priceData : PriceComponents,
    calculateBondPrice fuel (finite_bond F cr 0%Qc yr fr) = Return priceData
    /\ pc_pvCoupons priceData
       = Fin (Qc_of_Z n * (F * (cr / Q2Qc 100 / fr)))
    /\ pc_pvFaceValue priceData = Fin F
    /\ pc_price priceData
       = Fin (Qc_of_Z n * (F * (cr / Q2Qc 100 / fr)) + F).
Proof.
  intros Hperiods Hn Hfuel.
  assert (Hb : (1 + 0 / Q2Qc 100 / fr)%Qc = 1%Qc) by (unfold Qcdiv; ring).
  eexists. split.
  { eapply calculateBondPrice_finite; eassumption. }
  assert (Hb0 : (1 + 0 / Q2Qc 100 / fr)%Qc <> 0%Qc)
    by (rewrite Hb; apply Q_apart_0_1).
  rewrite (reference_price_finite F cr 0%Qc yr fr n Hperiods Hn Hb0).
  cbn [pc_pvCoupons pc_pvFaceValue pc_price].
  rewrite Hb, coupons_value_undiscounted, Qcpower_1, Z2Nat.id by lia.
  replace (F / 1)%Qc with F by (field; apply Q_apart_0_1). done.
Qed.

(** X10.  A price that is not finite is still classified: NaN as a
    discount bond with difference NaN, +Infinity as a premium bond with
    difference +Infinity, -Infinity as a discount bond with difference
    +Infinity, for every finite face value and every tolerance (given or
    left out). *)
Theorem analyzeBondType_non_finite_price (fv : Qc) (tolerance : option num) :
  analyzeBondType NaN (Fin fv) tolerance
  = {| bt_type := discount; bt_description := "Discount bond";
       bt_difference := NaN |}
  /\ analyzeBondType PInf (Fin fv) tolerance
     = {| bt_type := premium; bt_description := "Premium bond";
          bt_difference := PInf |}
  /\ analyzeBondType NInf (Fin fv) tolerance
     = {| bt_type := discount; bt_description := "Discount bond";
          bt_difference := PInf |}.
Proof.
  unfold analyzeBondType, ngt, nsub. cbn [nneg nadd nabs].
  repeat split; by destruct (default default_tolerance tolerance).
Qed.

(** X11.  With a tolerance of 0 or below nothing is ever par: a price
    exactly equal to the face value is reported as a discount bond with
    difference 0. *)
Theorem analyzeBondType_nonpositive_tolerance (bp fv tol : Qc) :
  (tol <= 0)%Qc ->
  bt_type (analyzeBondType (Fin bp) (Fin fv) (Some (Fin tol))) <> par
  /\ analyzeBondType (Fin fv) (Fin fv) (Some (Fin tol))
     = {| bt_type := discount; bt_description := "Discount bond";
          bt_difference := lit 0 |}.
Proof.
  intros Htol.
  assert (Hnot : forall d : Qc, bool_decide (Qcabs d < tol)%Qc = false).
  { intros d. apply bool_decide_eq_false_2. apply Qcle_not_lt.
    eapply Qcle_trans; [done | apply Qcabs_nonneg]. }
  rewrite !analyzeBondType_Fin, !Hnot. split.
  - by case_bool_decide.
  - rewrite bool_decide_eq_false_2.
    + unfold lit. do 2 f_equal. ring.
    + intros H. by apply Qclt_not_eq in H.
Qed.

(** X12.  With a positive tolerance the classifier is symmetric: swapping
    bondPrice and faceValue keeps the reported difference and mirrors the
    type (par stays par, premium and discount trade places). *)
Theorem analyzeBondType_swap (bp fv tol : Qc) :
  (0 < tol)%Qc ->
  bt_difference (analyzeBondType (Fin fv) (Fin bp) (Some (Fin tol)))
  = bt_difference (analyzeBondType (Fin bp) (Fin fv) (Some (Fin tol)))
  /\ bt_type (analyzeBondType (Fin fv) (Fin bp) (Some (Fin tol)))
     = swap_type (bt_type (analyzeBondType (Fin bp) (Fin fv)
                             (Some (Fin tol)))).
Proof.
  intros Htol. rewrite !analyzeBondType_Fin, (Qcabs_Qcminus fv bp).
  case_bool_decide as Hpar; [done|].
  destruct (Qc_dec bp fv) as [[Hlt|Hgt]|Heq].
  - rewrite (bool_decide_eq_true_2 (bp < fv)%Qc) by done.
    rewrite (bool_decide_eq_false_2 (fv < bp)%Qc); [done|].
    by apply Qcle_not_lt, Qclt_le_weak.
  - rewrite (bool_decide_eq_true_2 (fv < bp)%Qc) by done.
    rewrite (bool_decide_eq_false_2 (bp < fv)%Qc); [done|].
    by apply Qcle_not_lt, Qclt_le_weak.
  - subst fv. exfalso. apply Hpar.
    replace (bp - bp)%Qc with 0%Qc by ring. done.
Qed.

Lemma sum_1_to_PInf (f : Z -> num) (n : nat) :
  (0 < n)%nat ->
  (forall t : Z, (1 <= t <= Z.of_nat n)%Z -> f t = PInf) ->
  sum_1_to n f = PInf.
Proof.
  induction n as [|n IH]; intros Hn Hf; [lia|]. cbn [sum_1_to].
  rewrite (Hf (Z.of_nat (S n))) by lia.
  destruct n as [|n]; [done|].
  rewrite IH; [done | lia | intros; apply Hf; lia].
Qed.

Lemma of_Z_positive (t : Z) : (0 < t)%Z -> (0 < Qc_of_Z t)%Qc.
Proof.
  intros Ht. rewrite <- Z2Qc_inj_0. by apply (proj1 (Z2Qc_inj_lt 0 t)).
Qed.

Lemma ndiv_pos_zero (c : Qc) : (0 < c)%Qc -> (Fin c / Fin 0%Qc)%num = PInf.
Proof.
  intros Hc. unfold ndiv, negative_sign.
  rewrite (bool_decide_eq_true_2 (0%Qc = 0%Qc)) by done.
  rewrite bool_decide_eq_false_2 by (by apply Qc_pos_nonzero).
  rewrite bool_decide_eq_false_2; [done|].
  by apply Qcle_not_lt, Qclt_le_weak.
Qed.

(** X13.  With a positive face value and coupon rate, a periodic yield of
    exactly -1 and a whole positive number of periods, every discount
    factor is a division by zero: [calculateBondMetrics] returns with
    pvCoupons, pvFaceValue and bondPrice all +Infinity, the purchase entry
    of the schedule at -Infinity, and the bond classified as a premium bond
    whose difference is +Infinity. *)
Theorem minus_one_yield_is_infinite_premium (F cr yt yr fr : Qc) (n : Z)
    (fuel : nat) :
  (0 < F)%Qc ->
  (0 < cr)%Qc ->
  (0 < fr)%Qc ->
  (yr * fr)%Qc = Qc_of_Z n ->
  (0 < n)%Z ->
  (yt / Q2Qc 100 / fr)%Qc = (- 1)%Qc ->
  (Z.to_nat n <= fuel)%nat ->
  exists r : ValuationResult,
    calculateBondMetrics fuel (finite_bond F cr yt yr fr) = Return r
    /\ vr_pvCoupons r = PInf
    /\ vr_pvFaceValue r = PInf
    /\ vr_bondPrice r = PInf
    /\ (cf_totalCashFlow <$> head (vr_cashFlows r)) = Some NInf
    /\ vr_bondType r
       = {| bt_type := premium; bt_description := "Premium bond";
            bt_difference := PInf |}.
Proof.
  intros HF Hcr Hfr Hperiods Hn Hy Hfuel.
  pose proof (Qc_pos_nonzero fr Hfr) as Hfr0.
  pose proof hundred_nonzero as H100.
  set (p := finite_bond F cr yt yr fr).
  assert (Hper : (years p * frequency p)%num = of_Z n).
  { unfold p, finite_bond. cbn [years frequency nmul]. by rewrite Hperiods. }
  assert (Hc : (0 < F * (cr / Q2Qc 100 / fr))%Qc).
  { unfold Qcdiv. repeat apply Qcmult_pos_pos; try done;
      by apply Qcinv_pos. }
  assert (Hbase : (lit 1 + ytm p / lit 100 / frequency p)%num = Fin 0%Qc).
  { unfold p, finite_bond, lit. cbn [ytm frequency].
    rewrite !ndiv_Fin by done. cbn [nadd]. rewrite Hy. f_equal; ring. }
  assert (Hcoupon : (faceValue p * (couponRate p / lit 100 / frequency p))%num
                    = Fin (F * (cr / Q2Qc 100 / fr))).
  { unfold p, finite_bond, lit. cbn [faceValue couponRate frequency].
    by rewrite !ndiv_Fin by done. }
  assert (Hprice : reference_price p
                   = {| pc_price := PInf; pc_pvCoupons := PInf;
                        pc_pvFaceValue := PInf;
                        pc_periodicCoupon := Fin (F * (cr / Q2Qc 100 / fr));
                        pc_periodicYield := Fin (- 1);
                        pc_periods := of_Z n |}).
  { unfold reference_price. rewrite Hper, Hbase, Hcoupon, trips_of_Z.
    rewrite (sum_1_to_PInf _ (Z.to_nat n)); [|lia|].
    - unfold of_Z.
      rewrite !Math_pow_zero_base by (by apply of_Z_positive).
      unfold p, finite_bond, lit. cbn [faceValue ytm frequency].
      rewrite ndiv_pos_zero by done. rewrite !ndiv_Fin by done.
      by rewrite Hy.
    - intros t Ht. unfold of_Z.
      rewrite Math_pow_zero_base by (apply of_Z_positive; lia).
      by apply ndiv_pos_zero. }
  eexists. split.
  - unfold calculateBondMetrics.
    rewrite calculateBondPrice_run, Hprice
      by (rewrite Hper, ?trips_of_Z; done).
    cbn [mbind outcome_bind].
    rewrite generateCashFlows_run;
      cbn [g_years g_frequency]; rewrite Hper, ?trips_of_Z; try done.
  - cbn [vr_pvCoupons vr_pvFaceValue vr_bondPrice vr_cashFlows vr_bondType
         pc_price pc_pvCoupons pc_pvFaceValue].
    repeat split.
Qed.

(** X14.  Whatever [calculateBondMetrics] returns is consistent with
    itself: bondPrice is pvCoupons + pvFaceValue, periods is
    years x frequency, the schedule has one entry per period plus the
    purchase entry, its first entry is the negated bondPrice, and every
    later entry pays the result's own periodicCoupon. *)
Theorem valuation_result_is_consistent (p : BondParameters) (fuel : nat)
    (r : ValuationResult) :
  calculateBondMetrics fuel p = Return r ->
  vr_bondPrice r = (vr_pvCoupons r + vr_pvFaceValue r)%num
  /\ vr_periods r = (years p * frequency p)%num
  /\ length (vr_cashFlows r) = S (trips (vr_periods r) 1)
  /\ (cf_totalCashFlow <$> head (vr_cashFlows r))
     = Some (- vr_bondPrice r)%num
  /\ Forall (fun cf => cf_couponPayment cf = vr_periodicCoupon r)
       (tail (vr_cashFlows r)).
Proof.
  unfold calculateBondMetrics. intros Hrun.
  destruct (calculateBondPrice fuel p) as [pc| |] eqn:Hpc; try done.
  cbn [mbind outcome_bind] in Hrun.
  destruct (generateCashFlows _ _) as [cfs| |] eqn:Hcfs; try done.
  cbn [mbind outcome_bind] in Hrun. injection Hrun as <-.
  apply generateCashFlows_return_inv in Hcfs as ->.
  cbn [vr_bondPrice vr_pvCoupons vr_pvFaceValue vr_periods vr_cashFlows
       vr_periodicCoupon g_years g_frequency g_periodicCoupon].
  unfold calculateBondPrice in Hpc.
  destruct (for_loop _ _ _ _ _) as [pv| |]; try done.
  cbn [mbind outcome_bind] in Hpc. injection Hpc as <-.
  cbn [pc_price pc_pvCoupons pc_pvFaceValue pc_periods pc_periodicCoupon].
  split; [done|]. split; [done|].
  split; [by rewrite length_cons, length_map, length_seqZ, Nat2Z.id|].
  split; [done|].
  cbn [tail]. apply Forall_forall. intros cf Hcf.
  by apply list_elem_of_fmap in Hcf as (t & -> & _).
Qed.

(** ** Further properties of the store and of the main module *)

Lemma subscribe_spec (fn : listener) (w : Store) :
  notified (subscribe fn w) = notified w
  /\ st_listeners (state (subscribe fn w)) = st_listeners (state w) ++ [fn]
  /\ params_of_state (state (subscribe fn w)) = params_of_state (state w)
  /\ st_errors (state (subscribe fn w)) = st_errors (state w)
  /\ st_bondCalculations (state (subscribe fn w))
     = st_bondCalculations (state w)
  /\ st_viewMode (state (subscribe fn w)) = st_viewMode (state w).
Proof. done. Qed.

(** X16.  Two [setState] calls in a row leave the state that one call with
    both updates would leave, but notify every subscriber twice, the first
    time with only the first update applied. *)
Theorem setState_twice_or_once (u1 u2 : list update) (w : Store) :
  state (setState u2 (setState u1 w)) = state (setState (u1 ++ u2) w)
  /\ notified (setState (u1 ++ u2) w)
     = notified w
       ++ map (fun fn => (fn, state (setState (u1 ++ u2) w)))
            (st_listeners (state w))
  /\ notified (setState u2 (setState u1 w))
     = notified w
       ++ map (fun fn => (fn, state (setState u1 w)))
            (st_listeners (state w))
       ++ map (fun fn => (fn, state (setState (u1 ++ u2) w)))
            (st_listeners (state w)).
Proof.
  assert (Hstate : state (setState u2 (setState u1 w))
                   = state (setState (u1 ++ u2) w)).
  { unfold setState, Object_assign; cbn [state]. by rewrite foldl_app. }
  split; [done|]. split.
  - by destruct (setState_spec (u1 ++ u2) w) as [-> ->].
  - rewrite <- Hstate.
    destruct (setState_spec u2 (setState u1 w)) as [Hs ->].
    destruct (setState_spec u1 w) as [Hs1 ->].
    rewrite Hs, Hs1, Object_assign_listeners, <- app_assoc.
    by rewrite <- Hs1, <- Hs.
Qed.

Lemma updateCalculations_post_frame (fuel : nat) (w w' : Store) :
  updateCalculations fuel w = Return w' ->
  st_errors (state w') = st_errors (state w)
  /\ params_of_state (state w') = params_of_state (state w).
Proof.
  unfold updateCalculations. intros Hrun.
  destruct (hasErrors _); [by injection Hrun as <-|].
  destruct (calculateBondMetrics _ _); try done; by injection Hrun as <-.
Qed.

Lemma updateCalculations_inv (fuel : nat) (w w' : Store) :
  updateCalculations fuel w = Return w' ->
  params_of_state (state w') = params_of_state (state w)
  /\ st_errors (state w') = st_errors (state w)
  /\ st_viewMode (state w') = st_viewMode (state w)
  /\ st_listeners (state w') = st_listeners (state w)
  /\ notified w'
     = notified w ++ map (fun fn => (fn, state w')) (st_listeners (state w))
  /\ (if hasErrors (st_errors (state w))
      then st_bondCalculations (state w') = None
      else exists c : ValuationResult,
             st_bondCalculations (state w') = Some c
             /\ calculateBondMetrics fuel (params_of_state (state w'))
                = Return c).
Proof.
  unfold updateCalculations. fold (params_of_state (state w)).
  intros Hrun.
  assert (Hset : forall c : option ValuationResult,
            params_of_state (state (setState [SetBondCalculations c] w))
            = params_of_state (state w)
            /\ st_errors (state (setState [SetBondCalculations c] w))
               = st_errors (state w)
            /\ st_viewMode (state (setState [SetBondCalculations c] w))
               = st_viewMode (state w)
            /\ st_listeners (state (setState [SetBondCalculations c] w))
               = st_listeners (state w)
            /\ notified (setState [SetBondCalculations c] w)
               = notified w
                 ++ map (fun fn =>
                           (fn, state (setState [SetBondCalculations c] w)))
                      (st_listeners (state w))
            /\ st_bondCalculations
                 (state (setState [SetBondCalculations c] w)) = c) by done.
  destruct (hasErrors (st_errors (state w))) eqn:Herr.
  - injection Hrun as <-.
    by destruct (Hset None) as (? & ? & ? & ? & ? & ?).
  - destruct (calculateBondMetrics fuel (params_of_state (state w)))
      as [c|e|] eqn:Hc; [|by apply calculateBondMetrics_no_throw in Hc|done].
    injection Hrun as <-.
    destruct (Hset (Some c)) as (Hp & ? & ? & ? & ? & ?).
    repeat split; try done. exists c. by rewrite Hp.
Qed.

(** X17.  Whenever [updateCalculations] returns, it has changed nothing
    but bondCalculations (inputs, errors, view mode and listeners are as
    before) and has notified every subscriber exactly once with the final
    state; bondCalculations is absent if an error is active and is the
    valuation of the stored inputs otherwise. *)
Theorem updateCalculations_postcondition (fuel : nat) (w w' : Store) :
  updateCalculations fuel w = Return w' ->
  params_of_state (state w') = params_of_state (state w)
  /\ st_errors (state w') = st_errors (state w)
  /\ st_viewMode (state w') = st_viewMode (state w)
  /\ st_listeners (state w') = st_listeners (state w)
  /\ notified w'
     = notified w ++ map (fun fn => (fn, state w')) (st_listeners (state w))
  /\ (if hasErrors (st_errors (state w))
      then st_bondCalculations (state w') = None
      else exists c : ValuationResult,
             st_bondCalculations (state w') = Some c
             /\ calculateBondMetrics fuel (params_of_state (state w'))
                = Return c).
Proof. apply updateCalculations_inv. Qed.

Lemma field_key_inj (f g : Field) : field_key f = field_key g -> f = g.
Proof. by destruct f, g. Qed.

(** X18.  Whenever the debounced callback returns, the error map holds for
    the edited field exactly what [validateField] said about the new value
    (its message, or no entry), every other entry is as before, the new
    value has been stored in the state even when it is invalid, and the
    other inputs are untouched. *)
Theorem debouncedUpdate_bookkeeping (fuel : nat) (field : Field)
    (value : num) (w w' : Store) :
  debouncedUpdate fuel field value w = Return w' ->
  st_errors (state w') !! field_key field = validateField field value
  /\ (forall k : string,
        k <> field_key field ->
        st_errors (state w') !! k = st_errors (state w) !! k)
  /\ get_field field (state w') = value
  /\ (forall other : Field,
        other <> field ->
        get_field other (state w') = get_field other (state w))
  /\ st_faceValue (state w') = st_faceValue (state w)
  /\ st_frequency (state w') = st_frequency (state w).
Proof.
  unfold debouncedUpdate. intros Hrun.
  set (errors := match validateField field value with
                 | Some e => <[field_key field := e]> (st_errors (state w))
                 | None => delete (field_key field) (st_errors (state w))
                 end) in *.
  set (w1 := setState [SetField field value; SetErrors errors] w) in *.
  assert (H1 : st_errors (state w1) = errors
               /\ get_field field (state w1) = value
               /\ (forall other : Field, other <> field ->
                     get_field other (state w1) = get_field other (state w))
               /\ st_faceValue (state w1) = st_faceValue (state w)
               /\ st_frequency (state w1) = st_frequency (state w)).
  { repeat split; try by destruct field.
    intros other Hother. by destruct field, other. }
  assert (Hw' : st_errors (state w') = st_errors (state w1)
                /\ params_of_state (state w') = params_of_state (state w1)).
  { destruct (negb (hasErrors errors)).
    - by apply updateCalculations_post_frame in Hrun.
    - by injection Hrun as <-. }
  destruct Hw' as [He Hp], H1 as (He1 & Hv & Ho & Hf & Hq).
  assert (Hget : forall f : Field,
            get_field f (state w') = get_field f (state w1)).
  { intros f. apply (f_equal (fun p => match f with
                                       | couponRate_field => couponRate p
                                       | ytm_field => ytm p
                                       | years_field => years p
                                       end)) in Hp.
    by destruct f. }
  rewrite He, He1. split; [|split; [|split; [|split; [|split]]]].
  - unfold errors. destruct (validateField field value).
    + by rewrite lookup_insert_eq.
    + by rewrite lookup_delete_eq.
  - intros k Hk. unfold errors. destruct (validateField field value).
    + by rewrite lookup_insert_ne.
    + by rewrite lookup_delete_ne.
  - by rewrite Hget.
  - intros other Hother. rewrite Hget. by apply Ho.
  - apply (f_equal faceValue) in Hp. cbn in Hp. by rewrite Hp.
  - apply (f_equal frequency) in Hp. cbn in Hp. by rewrite Hp.
Qed.

(** X19.  An error is cleared by the next valid edit of the same field:
    starting with no error active, an edit that fails validation returns
    with that error as the only one active and the stored result untouched;
    a following edit of that field that passes validation, with
    years x frequency of the edited inputs not +Infinity, returns as well,
    leaves the error map empty, stores the new value, and stores the
    valuation of the inputs as they then are. *)
Theorem error_is_cleared_by_next_valid_edit (fuel : nat) (field : Field)
    (v1 v2 : num) (msg : string) (w : Store) :
  st_errors (state w) = ∅ ->
  validateField field v1 = Some msg ->
  validateField field v2 = None ->
  (st_years (Object_assign (state w) [SetField field v2])
   * st_frequency (state w))%num <> PInf ->
  (trips (st_years (Object_assign (state w) [SetField field v2])
          * st_frequency (state w)) 1 <= fuel)%nat ->
  exists w1 w2 : Store,
    debouncedUpdate fuel field v1 w = Return w1
    /\ debouncedUpdate fuel field v2 w1 = Return w2
    /\ st_errors (state w1) = {[ field_key field := msg ]}
    /\ st_bondCalculations (state w1) = st_bondCalculations (state w)
    /\ st_errors (state w2) = ∅
    /\ get_field field (state w2) = v2
    /\ exists c : ValuationResult,
         st_bondCalculations (state w2) = Some c
         /\ calculateBondMetrics fuel (params_of_state (state w2))
            = Return c.
Proof.
  intros Hempty Hv1 Hv2 Hfin Hfuel.
  destruct (debouncedUpdate_error_keeps_result fuel field v1 w msg Hv1)
    as (w1 & Hrun1 & Hstate1 & _ & _ & Hkept).
  assert (He1 : st_errors (state w1) = {[ field_key field := msg ]}).
  { rewrite Hstate1, Hempty. by destruct field. }
  set (w1' := setState [SetField field v2; SetErrors ∅] w1).
  assert (Hy : st_years (state w1')
               = st_years (Object_assign (state w) [SetField field v2])).
  { subst w1'. unfold setState; cbn [state]. rewrite Hstate1.
    by destruct field. }
  assert (Hf : st_frequency (state w1') = st_frequency (state w)).
  { subst w1'. unfold setState; cbn [state]. rewrite Hstate1.
    by destruct field. }
  destruct (updateCalculations_returns fuel w1') as [w2 Hrun2].
  { by rewrite Hy, Hf. }
  { by rewrite Hy, Hf. }
  assert (Hrun2' : debouncedUpdate fuel field v2 w1 = Return w2).
  { unfold debouncedUpdate. rewrite Hv2, He1, delete_singleton_eq.
    change (negb (hasErrors ∅)) with true. cbn match. exact Hrun2. }
  exists w1, w2. split; [done|]. split; [done|]. split; [done|].
  split; [done|].
  apply updateCalculations_inv in Hrun2
    as (Hp & He & _ & _ & _ & Hres).
  assert (He2 : st_errors (state w1') = ∅) by (by destruct field).
  rewrite He2 in He, Hres. change (hasErrors ∅) with false in Hres.
  split; [done|]. split; [|done].
  apply (f_equal (fun p => match field with
                           | couponRate_field => couponRate p
                           | ytm_field => ytm p
                           | years_field => years p
                           end)) in Hp.
  by destruct field.
Qed.

Lemma handleStateChange_calls_table (innerWidth : num) (s : State) :
  st_viewMode s = table ->
  Forall (fun call => forall cashFlows showLabels,
            call <> renderChart cashFlows showLabels)
    (handleStateChange_calls innerWidth s).
Proof.
  intros Hview. unfold handleStateChange_calls. rewrite Hview.
  destruct (st_bondCalculations s); [|by constructor].
  cbn. by repeat constructor.
Qed.

Lemma handleResponsiveView_store (innerWidth : num) (w : Store) :
  st_viewMode (state (handleResponsiveView innerWidth w))
  = (if nlt innerWidth (lit 600) then table else st_viewMode (state w))
  /\ params_of_state (state (handleResponsiveView innerWidth w))
     = params_of_state (state w)
  /\ st_errors (state (handleResponsiveView innerWidth w))
     = st_errors (state w)
  /\ st_bondCalculations (state (handleResponsiveView innerWidth w))
     = st_bondCalculations (state w)
  /\ st_listeners (state (handleResponsiveView innerWidth w))
     = st_listeners (state w)
  /\ notified (handleResponsiveView innerWidth w)
     = notified w
       ++ (if nlt innerWidth (lit 600)
              && bool_decide (st_viewMode (state w) = chart)
           then map (fun fn =>
                       (fn, state (handleResponsiveView innerWidth w)))
                  (st_listeners (state w))
           else []).
Proof.
  unfold handleResponsiveView.
  destruct (nlt innerWidth (lit 600)) eqn:Hnarrow; cbn [andb].
  - case_bool_decide as Hview.
    + by repeat split.
    + rewrite app_nil_r. repeat split.
      by destruct (st_viewMode (state w)).
  - rewrite app_nil_r. by repeat split.
Qed.

Lemma handleResponsiveView_frame (innerWidth : num) (w : Store) :
  nlt innerWidth (lit 600) = true ->
  st_viewMode (state (handleResponsiveView innerWidth w)) = table
  /\ exists l : list (listener * State),
       notified (handleResponsiveView innerWidth w) = notified w ++ l
       /\ Forall (fun entry => st_viewMode entry.2 = table) l.
Proof.
  intros Hnarrow.
  destruct (handleResponsiveView_store innerWidth w)
    as (Hview & _ & _ & _ & _ & Hlog).
  rewrite Hnarrow in Hview, Hlog. split; [done|].
  eexists. split; [exact Hlog|].
  destruct (_ && _); [|by constructor].
  apply Forall_forall. intros [fn s] Hin.
  apply list_elem_of_fmap in Hin as (fn' & [= -> ->] & _). done.
Qed.

(** X20.  [handleResponsiveView] forces the table view below 600 px and
    otherwise does nothing: afterwards the view mode is table if the width
    is below 600 and is unchanged if not (widening never brings the chart
    back); inputs, errors, result and listeners are untouched; subscribers
    are notified only when the view actually changed; and running it again
    at the same width changes nothing. *)
Theorem handleResponsiveView_effect (innerWidth : num) (w : Store) :
  st_viewMode (state (handleResponsiveView innerWidth w))
  = (if nlt innerWidth (lit 600) then table else st_viewMode (state w))
  /\ params_of_state (state (handleResponsiveView innerWidth w))
     = params_of_state (state w)
  /\ st_errors (state (handleResponsiveView innerWidth w))
     = st_errors (state w)
  /\ st_bondCalculations (state (handleResponsiveView innerWidth w))
     = st_bondCalculations (state w)
  /\ st_listeners (state (handleResponsiveView innerWidth w))
     = st_listeners (state w)
  /\ notified (handleResponsiveView innerWidth w)
     = notified w
       ++ (if nlt innerWidth (lit 600)
              && bool_decide (st_viewMode (state w) = chart)
           then map (fun fn =>
                       (fn, state (handleResponsiveView innerWidth w)))
                  (st_listeners (state w))
           else [])
  /\ handleResponsiveView innerWidth (handleResponsiveView innerWidth w)
     = handleResponsiveView innerWidth w.
Proof.
  destruct (handleResponsiveView_store innerWidth w)
    as (Hv & Hp & He & Hc & Hl & Hlog).
  repeat (split; [done|]).
  unfold handleResponsiveView at 1.
  destruct (nlt innerWidth (lit 600)) eqn:Hnarrow; [|done].
  by rewrite Hv, bool_decide_eq_false_2.
Qed.

(** X21.  A resize that ends below 600 px never draws the chart: the
    callback leaves the store in table view, makes no renderer call of its
    own, and whatever the subscriber draws for the notifications it caused
    contains no [renderChart] call. *)
Theorem narrow_resize_never_draws_chart (innerWidth : num) (w : Store) :
  nlt innerWidth (lit 600) = true ->
  st_viewMode (state (resizeCallback innerWidth w).1) = table
  /\ (resizeCallback innerWidth w).2 = []
  /\ Forall (fun call => forall cashFlows showLabels,
               call <> renderChart cashFlows showLabels)
       (draws innerWidth
          (drop (length (notified w))
             (notified (resizeCallback innerWidth w).1))).
Proof.
  intros Hnarrow.
  destruct (handleResponsiveView_frame innerWidth w Hnarrow)
    as (Hview & Hlog).
  unfold resizeCallback.
  assert (Hres : (match st_bondCalculations
                          (state (handleResponsiveView innerWidth w)) with
                  | Some bondCalculations =>
                      if bool_decide
                           (st_viewMode
                              (state (handleResponsiveView innerWidth w))
                            = chart)
                      then (handleResponsiveView innerWidth w,
                            [renderChart (vr_cashFlows bondCalculations)
                               (shouldShowLabels innerWidth)])
                      else (handleResponsiveView innerWidth w, [])
                  | None => (handleResponsiveView innerWidth w, [])
                  end)
                 = (handleResponsiveView innerWidth w, [])).
  { rewrite Hview. by destruct (st_bondCalculations _). }
  rewrite Hres. cbn [fst snd]. split; [done|]. split; [done|].
  destruct Hlog as (l & -> & Hl). rewrite drop_app_length.
  unfold draws. apply Forall_flat_map, Forall_forall.
  intros [fn s] Hin. cbn [fst snd].
  destruct (bool_decide (fn = 0%nat)); [|by constructor].
  apply handleStateChange_calls_table.
  rewrite Forall_forall in Hl. by apply (Hl (fn, s)).
Qed.

(** X22.  Page start-up notifies the renderer exactly once: when [init]
    starts from a store without listeners and without errors whose
    years x frequency is not +Infinity, it returns, and the view switch
    that a narrow viewport forces happens before anyone is subscribed, so
    the only notification is the one of [updateCalculations]; afterwards
    the renderer is the only listener, the view mode is table exactly when
    the width was below 600 (else unchanged), and the stored result is the
    valuation of the stored inputs. *)
Theorem init_page_notifies_once (fuel : nat) (innerWidth : num)
    (w : Store) :
  st_listeners (state w) = [] ->
  hasErrors (st_errors (state w)) = false ->
  (st_years (state w) * st_frequency (state w))%num <> PInf ->
  (trips (st_years (state w) * st_frequency (state w)) 1 <= fuel)%nat ->
  exists w' : Store,
    init_page fuel innerWidth w = Return w'
    /\ st_listeners (state w') = [handleStateChange]
    /\ notified w' = notified w ++ [(handleStateChange, state w')]
    /\ st_viewMode (state w')
       = (if nlt innerWidth (lit 600) then table else st_viewMode (state w))
    /\ params_of_state (state w') = params_of_state (state w)
    /\ exists c : ValuationResult,
         st_bondCalculations (state w') = Some c
         /\ calculateBondMetrics fuel (params_of_state (state w'))
            = Return c.
Proof.
  intros Hnone Herr Hfin Hfuel. unfold init_page.
  destruct (handleResponsiveView_store innerWidth w)
    as (Hv0 & Hp0 & He0 & _ & Hl0 & Hlog0).
  destruct (subscribe_spec handleStateChange
              (handleResponsiveView innerWidth w))
    as (Hn1 & Hl1 & Hp1 & He1 & _ & Hv1).
  set (w1 := subscribe handleStateChange
               (handleResponsiveView innerWidth w)) in *.
  assert (Hp01 : params_of_state (state w1) = params_of_state (state w))
    by (by rewrite Hp1, Hp0).
  assert (Hy : st_years (state w1) = st_years (state w))
    by exact (f_equal years Hp01).
  assert (Hf : st_frequency (state w1) = st_frequency (state w))
    by exact (f_equal frequency Hp01).
  destruct (updateCalculations_returns fuel w1) as [w' Hrun].
  { by rewrite Hy, Hf. }
  { by rewrite Hy, Hf. }
  exists w'. split; [done|].
  apply updateCalculations_inv in Hrun
    as (Hp & He & Hview & Hl & Hlog & Hres).
  rewrite Hl1, Hl0, Hnone in Hl, Hlog. cbn [app map] in Hl, Hlog.
  rewrite Hn1, Hlog0, Hnone in Hlog.
  rewrite He1, He0, Herr in Hres.
  split; [done|]. split.
  { rewrite Hlog. by destruct (_ && _); rewrite app_nil_r. }
  split; [by rewrite Hview, Hv1, Hv0|].
  split; [by rewrite Hp, Hp01 | done].
Qed.

(** ** The chart: keyboard navigation and data *)

Lemma keydown_in_range (cashFlows : list CashFlow) (totalData : list num)
    (key : string) (f : ChartFocus) :
  (0 <= currentFocusIndex f < Z.of_nat (length cashFlows))%Z ->
  (0 <= currentFocusIndex (keydownListener cashFlows totalData key f).1
   < Z.of_nat (length cashFlows))%Z
  /\ (keydownListener cashFlows totalData key f).2 <> key_TypeError
  /\ isKeyboardMode (keydownListener cashFlows totalData key f).1 = true.
Proof.
  intros Hf. unfold keydownListener. cbv zeta.
  repeat case_bool_decide;
    cbn [fst snd currentFocusIndex isKeyboardMode];
    repeat split; try lia; try done.
  all: destruct (cashFlows !! _) eqn:Hlook; [done|];
    apply lookup_ge_None in Hlook; lia.
Qed.

Lemma press_keys_in_range (cashFlows : list CashFlow) (keys : list string) :
  forall f : ChartFocus,
    (0 <= currentFocusIndex f < Z.of_nat (length cashFlows))%Z ->
    (0 <= currentFocusIndex (press_keys cashFlows keys f)
     < Z.of_nat (length cashFlows))%Z.
Proof.
  unfold press_keys. induction keys as [|key keys IH]; intros f Hf; [done|].
  cbn [foldl]. apply IH. by apply keydown_in_range.
Qed.

(** X23.  On the chart of any schedule that [generateCashFlows] returned,
    the keyboard focus always rests on an existing bar: after the reset of
    [renderChart] and any run of key presses the focus index is a valid
    index of the schedule, and the next key press, whatever the key, never
    fails on a missing data point. *)
Theorem keyboard_focus_stays_on_a_bar (a : CashFlowParams) (fuel : nat)
    (cashFlows : list CashFlow) (keys : list string) (key : string)
    (f : ChartFocus) :
  generateCashFlows fuel a = Return cashFlows ->
  (0 <= currentFocusIndex
          (press_keys cashFlows keys (focus_after_render f)))%Z
  /\ is_Some (cashFlows
              !! Z.to_nat (currentFocusIndex
                             (press_keys cashFlows keys
                                (focus_after_render f))))
  /\ (keydownListener cashFlows (map cf_totalCashFlow cashFlows) key
        (press_keys cashFlows keys (focus_after_render f))).2
     <> key_TypeError.
Proof.
  intros Hrun. apply generateCashFlows_return_inv in Hrun.
  assert (Hlen : (0 < length cashFlows)%nat) by (rewrite Hrun; simpl; lia).
  pose proof (press_keys_in_range cashFlows keys (focus_after_render f))
    as Hrange.
  cbn [focus_after_render currentFocusIndex] in Hrange.
  specialize (Hrange ltac:(lia)).
  split; [lia|]. split.
  - apply lookup_lt_is_Some. lia.
  - by apply keydown_in_range.
Qed.

(** X24.  What the keys do, for a focus index within the bars: Home goes
    to the first bar and End to the last; ArrowRight on the last bar and
    ArrowLeft on the first are handled but move nothing and announce
    nothing; ArrowRight followed by ArrowLeft returns to the starting bar
    unless it was the last; ArrowDown and ArrowUp act as ArrowRight and
    ArrowLeft; any other key is ignored, except that it, too, switches
    keyboard mode on. *)
Theorem key_bindings (cashFlows : list CashFlow) (totalData : list num)
    (f : ChartFocus) :
  (0 <= currentFocusIndex f < Z.of_nat (length cashFlows))%Z ->
  currentFocusIndex (keydownListener cashFlows totalData "Home" f).1 = 0%Z
  /\ currentFocusIndex (keydownListener cashFlows totalData "End" f).1
     = (Z.of_nat (length cashFlows) - 1)%Z
  /\ (currentFocusIndex f = (Z.of_nat (length cashFlows) - 1)%Z ->
      keydownListener cashFlows totalData "ArrowRight" f
      = ({| currentFocusIndex := currentFocusIndex f;
            isKeyboardMode := true |}, key_stayed))
  /\ (currentFocusIndex f = 0%Z ->
      keydownListener cashFlows totalData "ArrowLeft" f
      = ({| currentFocusIndex := 0; isKeyboardMode := true |}, key_stayed))
  /\ ((currentFocusIndex f < Z.of_nat (length cashFlows) - 1)%Z ->
      currentFocusIndex
        (keydownListener cashFlows totalData "ArrowLeft"
           (keydownListener cashFlows totalData "ArrowRight" f).1).1
      = currentFocusIndex f)
  /\ keydownListener cashFlows totalData "ArrowDown" f
     = keydownListener cashFlows totalData "ArrowRight" f
  /\ keydownListener cashFlows totalData "ArrowUp" f
     = keydownListener cashFlows totalData "ArrowLeft" f
  /\ (forall key : string,
        key ∉ ["ArrowRight"; "ArrowDown"; "ArrowLeft"; "ArrowUp"; "Home";
               "End"] ->
        keydownListener cashFlows totalData key f
        = ({| currentFocusIndex := currentFocusIndex f;
              isKeyboardMode := true |}, key_ignored)).
Proof.
  intros Hf. unfold keydownListener. cbv zeta.
  repeat match goal with
  | |- context [bool_decide (?P \/ ?Q)] =>
      first [ rewrite (bool_decide_eq_true_2 (P \/ Q)) by auto
            | rewrite (bool_decide_eq_false_2 (P \/ Q)) by (by intros [|]) ]
  | |- context [bool_decide (@eq string ?x ?y)] =>
      first [ rewrite (bool_decide_eq_true_2 (x = y)) by reflexivity
            | rewrite (bool_decide_eq_false_2 (x = y)) by discriminate ]
  end.
  split; [by case_bool_decide|]. split; [by case_bool_decide|].
  split.
  { intros Hlast. rewrite bool_decide_eq_false_2; [done|]. lia. }
  split.
  { intros Hfirst. rewrite bool_decide_eq_false_2; [by rewrite Hfirst|].
    lia. }
  split.
  { intros Hlt. rewrite (bool_decide_eq_true_2 (Z.min _ _ <> _)) by lia.
    cbn [fst currentFocusIndex].
    rewrite bool_decide_eq_true_2 by lia. cbn [fst currentFocusIndex]. lia. }
  split; [done|]. split; [done|].
  intros key Hkey.
  rewrite !bool_decide_eq_false_2; [done|..];
    intros H; apply Hkey; rewrite !elem_of_cons; tauto.
Qed.

Lemma zip_with_stack (l : list CashFlow) :
  Forall (fun cf => cf_totalCashFlow cf
                    = (cf_couponPayment cf + cf_principalPayment cf)%num) l ->
  zip_with nadd (map cf_couponPayment l) (map cf_principalPayment l)
  = map cf_totalCashFlow l.
Proof. induction 1 as [|cf l Hcf _ IH]; [done|]. cbn. by rewrite IH, Hcf. Qed.

(** X25.  In the chart of any returned schedule the two stacked datasets
    add up, bar by bar, to the totals shown in the labels and tooltips:
    couponData[i] + principalData[i] = totalData[i]; and all the arrays
    handed to the chart have one element per schedule entry. *)
Theorem chart_bars_stack_to_totals (a : CashFlowParams) (fuel : nat)
    (cashFlows : list CashFlow) :
  generateCashFlows fuel a = Return cashFlows ->
  zip_with nadd (cd_couponData (chartData cashFlows))
    (cd_principalData (chartData cashFlows))
  = cd_totalData (chartData cashFlows)
  /\ length (cd_labels (chartData cashFlows)) = length cashFlows
  /\ length (cd_couponData (chartData cashFlows)) = length cashFlows
  /\ length (cd_principalData (chartData cashFlows)) = length cashFlows
  /\ length (cd_totalData (chartData cashFlows)) = length cashFlows
  /\ length (cd_principalColors (chartData cashFlows)) = length cashFlows.
Proof.
  intros Hrun. unfold chartData.
  cbn [cd_labels cd_couponData cd_principalData cd_totalData
       cd_principalColors].
  rewrite !length_map. split; [|done].
  apply zip_with_stack. apply generateCashFlows_return_inv in Hrun as ->.
  apply Forall_cons. split.
  - unfold purchase_entry.
    cbn [cf_totalCashFlow cf_couponPayment cf_principalPayment].
    by rewrite nadd_0_l.
  - apply Forall_forall. intros cf Hcf.
    by apply list_elem_of_fmap in Hcf as (t & -> & _).
Qed.

(** X26.  Bar colours of the principal dataset, for a bond with a whole
    positive number n of periods, a face value that is not negative and a
    positive finite price: the purchase bar, and only it, has the purchase
    colour; the n bars after it have the mint colour. *)
Theorem only_the_purchase_bar_is_purchase_coloured (F yr fr P : Qc)
    (periodicCoupon : num) (n : Z) (fuel : nat) :
  (0 <= F)%Qc ->
  (0 < P)%Qc ->
  (yr * fr)%Qc = Qc_of_Z n ->
  (0 < n)%Z ->
  (Z.to_nat n <= fuel)%nat ->
  exists cashFlows : list CashFlow,
    generateCashFlows fuel
      {| g_faceValue := Fin F; g_frequency := Fin fr; g_years := Fin yr;
         g_periodicCoupon := periodicCoupon; g_bondPrice := Fin P |}
    = Return cashFlows
    /\ cd_principalColors (chartData cashFlows)
       = COLORS_purchase :: replicate (Z.to_nat n) COLORS_mint.
Proof.
  intros HF HP Hperiods Hn Hfuel. eexists. split.
  { apply (generateCashFlows_integral _ n); [|done].
    cbn [g_years g_frequency nmul]. by rewrite Hperiods. }
  unfold chartData. cbn [cd_principalColors map purchase_entry
                         cf_principalPayment g_bondPrice nneg].
  f_equal.
  - unfold nle, lit. rewrite bool_decide_eq_false_2; [done|].
    apply Qclt_not_le.
    apply (Qcplus_lt_mono_r _ _ P). by rewrite Qcplus_0_l, Qcplus_comm,
      Qcplus_opp_r.
  - symmetry. apply replicate_as_Forall. split.
    + by rewrite !length_map, length_seqZ, Nat2Z.id.
    + apply Forall_forall. intros col Hcol.
      apply list_elem_of_fmap in Hcol as (val & -> & Hval).
      apply list_elem_of_fmap in Hval as (cf & -> & Hcf).
      apply list_elem_of_fmap in Hcf as (t & -> & _).
      unfold reference_entry. cbn [cf_principalPayment g_faceValue].
      case_bool_decide; unfold nle, lit.
      * by rewrite bool_decide_eq_true_2.
      * by rewrite bool_decide_eq_true_2.
Qed.

(** ** The self-tests *)

Lemma for_loop_fuel_mono {A : Type} (body : Z -> A -> A) (periods : num)
    (fuel : nat) :
  forall (fuel' : nat) (t : Z) (acc r : A),
    for_loop fuel periods body t acc = Return r ->
    (fuel <= fuel')%nat ->
    for_loop fuel' periods body t acc = Return r.
Proof.
  induction fuel as [|fuel IH]; intros fuel' t acc r; cbn [for_loop].
  - destruct (nle (of_Z t) periods) eqn:Hle; [done|].
    intros Hrun _. by rewrite for_loop_skip.
  - destruct (nle (of_Z t) periods) eqn:Hle.
    + intros Hrun Hfuel. destruct fuel' as [|fuel']; [lia|].
      cbn [for_loop]. rewrite Hle. apply IH; [done | lia].
    + intros Hrun _. by rewrite for_loop_skip.
Qed.

Lemma calculateBondPrice_fuel_mono (p : BondParameters) (fuel fuel' : nat)
    (pc : PriceComponents) :
  calculateBondPrice fuel p = Return pc ->
  (fuel <= fuel')%nat ->
  calculateBondPrice fuel' p = Return pc.
Proof.
  unfold calculateBondPrice. intros Hrun Hfuel.
  destruct (for_loop fuel _ _ _ _) as [pv| |] eqn:Hpv; try done.
  by rewrite (for_loop_fuel_mono _ _ _ _ _ _ _ Hpv Hfuel).
Qed.

Lemma generateCashFlows_fuel_mono (a : CashFlowParams) (fuel fuel' : nat)
    (cashFlows : list CashFlow) :
  generateCashFlows fuel a = Return cashFlows ->
  (fuel <= fuel')%nat ->
  generateCashFlows fuel' a = Return cashFlows.
Proof.
  unfold generateCashFlows. intros Hrun Hfuel.
  by apply (for_loop_fuel_mono _ _ fuel).
Qed.

Lemma calculateBondMetrics_fuel_mono (p : BondParameters) (fuel fuel' : nat)
    (r : ValuationResult) :
  calculateBondMetrics fuel p = Return r ->
  (fuel <= fuel')%nat ->
  calculateBondMetrics fuel' p = Return r.
Proof.
  unfold calculateBondMetrics. intros Hrun Hfuel.
  destruct (calculateBondPrice fuel p) as [pc| |] eqn:Hpc; try done.
  rewrite (calculateBondPrice_fuel_mono _ _ _ _ Hpc Hfuel).
  cbn [mbind outcome_bind] in *.
  destruct (generateCashFlows fuel _) as [cfs| |] eqn:Hcfs; try done.
  by rewrite (generateCashFlows_fuel_mono _ _ _ _ Hcfs Hfuel).
Qed.

Lemma run_test_fuel_mono (test : SelfTest) (fuel fuel' : nat)
    (l : TestLog) :
  run_test fuel test = Return l ->
  (fuel <= fuel')%nat ->
  run_test fuel' test = Return l.
Proof.
  unfold run_test. intros Hrun Hfuel.
  destruct (calculateBondMetrics fuel (test_inputs test)) as [r|e|] eqn:Hr;
    [|by apply calculateBondMetrics_no_throw in Hr|done].
  by rewrite (calculateBondMetrics_fuel_mono _ _ _ _ Hr Hfuel).
Qed.

(** X27.  The self-tests that the page runs at start-up all pass: given
    fuel for the ten periods of their bonds, [runSelfTests] logs a pass for
    the par test (price within 0.2 of 100), for the premium test (price
    above 100) and for the discount test (price below 100); no test logs a
    failure or a caught error. *)
Theorem runSelfTests_all_pass (fuel : nat) :
  (10 <= fuel)%nat ->
  runSelfTests fuel
  = Return [ log_passed "Par bond pricing";
             log_passed "Premium bond pricing";
             log_passed "Discount bond pricing" ].
Proof.
  intros Hfuel.
  assert (Hall : Forall2 (fun test l => run_test fuel test = Return l) tests
            [ log_passed "Par bond pricing";
              log_passed "Premium bond pricing";
              log_passed "Discount bond pricing" ]).
  { repeat constructor; apply (run_test_fuel_mono _ 10); try done;
      apply (bool_decide_unpack _); vm_compute; exact I. }
  unfold runSelfTests. revert Hall. generalize tests.
  intros ts Hall. induction Hall as [|test l ts ls Hrun _ IH]; [done|].
  cbn [mapM]. rewrite Hrun. cbn [mbind outcome_bind]. by rewrite IH.
Qed.

(** ** The tooltip module *)

Lemma split_dash_nonempty (s : string) : split_dash s <> [].
Proof. induction s as [|c s IH]; simpl; repeat case_match; done. Qed.

Lemma split_dash_dashless (s : string) :
  dashless s = true -> split_dash s = [s].
Proof.
  induction s as [|c s IH]; [done|]. simpl.
  destruct (Ascii.eqb c "-"%char); [done|]. simpl. intros Hs.
  by rewrite IH.
Qed.

Lemma split_dash_app (x s : string) :
  dashless x = true ->
  split_dash (x +:+ String "-"%char s) = x :: split_dash s.
Proof.
  induction x as [|c x IH]; [done|]. simpl.
  destruct (Ascii.eqb c "-"%char); [done|]. simpl. intros Hx.
  by rewrite IH.
Qed.

Lemma remove_first_dashless (s : string) :
  dashless s = true -> remove_first "tooltip-" s = s.
Proof.
  induction s as [|c s IH]; [done|]. intros Hs.
  assert (Hpre : String.prefix "tooltip-" (String c s) = false).
  { destruct (String.prefix "tooltip-" (String c s)) eqn:Hp; [|done].
    apply String.prefix_correct in Hp. exfalso.
    assert (Hd : dashless (String.substring 0 (String.length "tooltip-")
                             (String c s)) = true).
    { clear -Hs. generalize (String.length "tooltip-").
      revert Hs. generalize (String c s). clear.
      intros s. induction s as [|c s IH]; intros Hs [|n]; try done.
      simpl in *. apply andb_prop in Hs as [-> Hs]. simpl. by apply IH. }
    by rewrite Hp in Hd. }
  cbn [remove_first]. rewrite Hpre. f_equal. apply IH.
  simpl in Hs. by apply andb_prop in Hs as [_ Hs].
Qed.

(** X28.  How [initTooltips] finds the input of a tooltip id: for an id
    without a dash, the id itself; otherwise the piece between the first
    and the second dash, provided it is not empty.  Whatever stands before
    the first dash is dropped (it need not be "tooltip"), and so is
    everything from the second dash on: "tooltip-ytm" gives "ytm", while
    "tooltip-coupon-rate" gives "coupon", not "coupon-rate". *)
Theorem tooltip_input_id_keeps_second_piece (x y z : string) :
  dashless x = true ->
  dashless y = true ->
  y <> EmptyString ->
  tooltip_input_id x = x
  /\ tooltip_input_id (x +:+ String "-"%char y) = y
  /\ tooltip_input_id (x +:+ String "-"%char (y +:+ String "-"%char z)) = y
  /\ tooltip_input_id "tooltip-ytm" = "ytm"
  /\ tooltip_input_id "tooltip-coupon-rate" = "coupon".
Proof.
  intros Hx Hy Hne. unfold tooltip_input_id. split; [|split; [|split]].
  - rewrite split_dash_dashless by done. cbn.
    by apply remove_first_dashless.
  - rewrite split_dash_app, split_dash_dashless by done. cbn.
    by rewrite bool_decide_eq_false_2.
  - rewrite !split_dash_app by done. cbn.
    by rewrite bool_decide_eq_false_2.
  - done.
Qed.

End Engine.

(** ** The engine on concrete bonds *)

(** Closed decidable facts are settled by evaluation. *)
Ltac by_evaluation := apply (bool_decide_unpack _); vm_compute; exact I.

(** The three checks of [runSelfTests] pass: the par bond prices at exactly
    100 (the test allows 0.2), the premium bond above 100, the discount bond
    below 100. *)
Example selfTest_par_passes :
  (pc_price <$> calculateBondPrice pow_frac_unreached 10 selfTest_par)
  = Return (lit 100).
Proof. by_evaluation. Qed.

Example selfTest_premium_passes :
  (fun r => ngt (vr_bondPrice r) (lit 100)) <$>
    calculateBondMetrics pow_frac_unreached 10 selfTest_premium
  = Return true.
Proof. by_evaluation. Qed.

Example selfTest_discount_passes :
  (fun r => nlt (vr_bondPrice r) (lit 100)) <$>
    calculateBondMetrics pow_frac_unreached 10 selfTest_discount
  = Return true.
Proof. by_evaluation. Qed.

(** One trip short of fuel, the model reports it instead of a price. *)
Example selfTest_par_needs_fuel :
  calculateBondPrice pow_frac_unreached 9 selfTest_par = OutOfFuel.
Proof. by_evaluation. Qed.

(** C7.  The failing run: the page initialises (one valuation is stored),
    then the debounced callback receives coupon rate -1.  Afterwards an
    error is active for couponRate, yet bondCalculations still holds the
    valuation made before the edit: the clearing branch of
    [updateCalculations] is never reached, because the callback only calls
    it when no error is active. *)
Theorem stale_result_survives_validation_error :
  exists (w1 w2 : Store) (c : ValuationResult),
    init pow_frac_unreached 10 initial_store = Return w1
    /\ debouncedUpdate pow_frac_unreached 10 couponRate_field (lit (-1)) w1
       = Return w2
    /\ hasErrors (st_errors (state w2)) = true
    /\ st_couponRate (state w2) = lit (-1)
    /\ st_bondCalculations (state w1) = Some c
    /\ st_bondCalculations (state w2) = Some c.
Proof.
  destruct (init pow_frac_unreached 10 initial_store) as [w1| |] eqn:E1;
    [|vm_compute in E1; discriminate..].
  destruct (debouncedUpdate_error_keeps_result pow_frac_unreached 10
              couponRate_field (lit (-1)) w1 _ eq_refl)
    as (w2 & Hrun & Hstate & _ & Herr & Hkeep).
  assert (Hc : is_Some (st_bondCalculations (state w1))).
  { vm_compute in E1. injection E1 as <-. by eexists. }
  destruct Hc as [c Hc].
  exists w1, w2, c. repeat split; try done.
  - by rewrite Hstate.
  - by rewrite Hkeep.
Qed.

(** Counterexample to C4 as stated: at faceValue 100, couponRate 6,
    ytm -200, years 5, frequency 2 the periodic yield is exactly -1, and
    neither function signals a DomainError: both return, with price
    +Infinity. *)
Lemma domain_error_not_signalled :
  (ytm (finite_bond (Q2Qc 100) (Q2Qc 6) (Q2Qc (-200)) (Q2Qc 5) (Q2Qc 2))
   / lit 100
   / frequency (finite_bond (Q2Qc 100) (Q2Qc 6) (Q2Qc (-200)) (Q2Qc 5)
                  (Q2Qc 2)))%num
  = lit (-1)
  /\ calculateBondPrice pow_frac_unreached 10
       (finite_bond (Q2Qc 100) (Q2Qc 6) (Q2Qc (-200)) (Q2Qc 5) (Q2Qc 2))
     <> Throw DomainError
  /\ calculateBondMetrics pow_frac_unreached 10
       (finite_bond (Q2Qc 100) (Q2Qc 6) (Q2Qc (-200)) (Q2Qc 5) (Q2Qc 2))
     <> Throw DomainError
  /\ (pc_price <$>
        calculateBondPrice pow_frac_unreached 10
          (finite_bond (Q2Qc 100) (Q2Qc 6) (Q2Qc (-200)) (Q2Qc 5) (Q2Qc 2)))
     = Return PInf
  /\ (vr_bondPrice <$>
        calculateBondMetrics pow_frac_unreached 10
          (finite_bond (Q2Qc 100) (Q2Qc 6) (Q2Qc (-200)) (Q2Qc 5) (Q2Qc 2)))
     = Return PInf.
Proof. repeat split; by_evaluation. Qed.

(** Counterexample to C6 as stated.  With faceValue 100, couponRate 0,
    ytm -200, years 1, frequency 1 the coupon rate is above the yield and
    the price is -100, below face value.  With faceValue 100, couponRate 10,
    ytm 0, years 1/2, frequency 1 the coupon rate is above the yield and no
    coupon is ever paid: the price is exactly 100, not above face value. *)
Lemma higher_coupon_without_premium :
  (nlt (lit (-200)) (lit 0) = true
   /\ (pc_price <$>
         calculateBondPrice pow_frac_unreached 1
           (finite_bond (Q2Qc 100) (Q2Qc 0) (Q2Qc (-200)) (Q2Qc 1) (Q2Qc 1)))
      = Return (lit (-100))
   /\ nlt (lit 100) (lit (-100)) = false)
  /\ (nlt (lit 0) (lit 10) = true
      /\ (pc_price <$>
            calculateBondPrice pow_frac_unreached 1
              (finite_bond (Q2Qc 100) (Q2Qc 10) (Q2Qc 0) (Q2Qc 0.5)
                 (Q2Qc 1)))
         = Return (lit 100)
      /\ nlt (lit 100) (lit 100) = false).
Proof. repeat split; by_evaluation. Qed.

(** Counterexample to C8 as stated: after the page initialises and the
    debounced callback receives ytm 7, the renderer has been called with a
    state whose ytm is already 7 while its bondCalculations is still the
    valuation made for ytm 6.5, which is not the valuation of that state's
    inputs. *)
Lemma renderer_sees_new_input_with_old_result :
  exists (w1 w2 : Store) (s : State) (c : ValuationResult),
    init pow_frac_unreached 10 initial_store = Return w1
    /\ debouncedUpdate pow_frac_unreached 10 ytm_field (lit 7) w1 = Return w2
    /\ notified w2 !! 1%nat = Some (handleStateChange, s)
    /\ st_ytm s = lit 7
    /\ st_errors s = ∅
    /\ st_bondCalculations s = Some c
    /\ st_bondCalculations (state w1) = Some c
    /\ calculateBondMetrics pow_frac_unreached 10 (params_of_state s)
       <> Return c
    /\ ~ result_matches_inputs pow_frac_unreached 10 s.
Proof.
  destruct (init pow_frac_unreached 10 initial_store) as [w1| |] eqn:E1;
    [|vm_compute in E1; discriminate..].
  vm_compute in E1. injection E1 as <-.
  eexists _, _, _, _. split; [done|].
  split; [vm_compute; reflexivity|].
  split; [vm_compute; reflexivity|].
  repeat split; by_evaluation.
Qed.

(** ** Instances at concrete inputs *)

Lemma calculateBondPrice_reference_witness :
  (years selfTest_par * frequency selfTest_par)%num <> PInf
  /\ (trips (years selfTest_par * frequency selfTest_par) 1 <= 10)%nat
  /\ calculateBondPrice pow_frac_unreached 10 selfTest_par
     = Return (reference_price pow_frac_unreached selfTest_par)
  /\ pc_price (reference_price pow_frac_unreached selfTest_par)
     = (pc_pvCoupons (reference_price pow_frac_unreached selfTest_par)
        + pc_pvFaceValue (reference_price pow_frac_unreached selfTest_par))%num.
Proof.
  assert (H1 : (years selfTest_par * frequency selfTest_par)%num <> PInf)
    by discriminate.
  assert (H2 : (trips (years selfTest_par * frequency selfTest_par) 1
                <= 10)%nat) by (vm_compute; lia).
  split; [exact H1|]. split; [exact H2|].
  exact (calculateBondPrice_reference pow_frac_unreached selfTest_par 10
           H1 H2).
Defined.

Lemma schedule_net_present_value_zero_witness :
  (Q2Qc 5 * Q2Qc 2)%Qc = Qc_of_Z 10
  /\ (0 < 10)%Z
  /\ (- 1 < Q2Qc 6 / Q2Qc 100 / Q2Qc 2)%Qc
  /\ (Z.to_nat 10 <= 10)%nat
  /\ exists (priceData : PriceComponents) (cashFlows : list CashFlow),
       calculateBondPrice pow_frac_unreached 10 selfTest_par
       = Return priceData
       /\ pc_periodicYield priceData = Fin (Q2Qc 6 / Q2Qc 100 / Q2Qc 2)
       /\ generateCashFlows 10
            {| g_faceValue := Fin (Q2Qc 100);
               g_frequency := Fin (Q2Qc 2);
               g_years := Fin (Q2Qc 5);
               g_periodicCoupon := pc_periodicCoupon priceData;
               g_bondPrice := pc_price priceData |}
          = Return cashFlows
       /\ length cashFlows = S (Z.to_nat 10)
       /\ net_present_value pow_frac_unreached
            (pc_periodicYield priceData) cashFlows
          = lit 0.
Proof.
  assert (H1 : (Q2Qc 5 * Q2Qc 2)%Qc = Qc_of_Z 10) by by_evaluation.
  assert (H2 : (0 < 10)%Z) by lia.
  assert (H3 : (- 1 < Q2Qc 6 / Q2Qc 100 / Q2Qc 2)%Qc) by by_evaluation.
  assert (H4 : (Z.to_nat 10 <= 10)%nat) by (vm_compute; lia).
  repeat (split; [assumption|]).
  exact (schedule_net_present_value_zero pow_frac_unreached
           (Q2Qc 100) (Q2Qc 6) (Q2Qc 6) (Q2Qc 5) (Q2Qc 2) 10 10
           H1 H2 H3 H4).
Defined.

Lemma generateCashFlows_schedule_witness :
  (lit 5 * lit 2)%num = of_Z 10
  /\ (0 < 10)%Z
  /\ (Z.to_nat 10 <= 10)%nat
  /\ exists cashFlows : list CashFlow,
       generateCashFlows 10
         {| g_faceValue := lit 100; g_frequency := lit 2; g_years := lit 5;
            g_periodicCoupon := lit 3; g_bondPrice := lit 100 |}
       = Return cashFlows
       /\ length cashFlows = 11%nat
       /\ cashFlows !! 10%nat
          = Some {| cf_period := of_Z 10;
                    cf_yearLabel := (of_Z 10 / lit 2)%num;
                    cf_couponPayment := lit 3;
                    cf_principalPayment := lit 100;
                    cf_totalCashFlow := (lit 3 + lit 100)%num |}.
Proof.
  assert (H1 : (lit 5 * lit 2)%num = of_Z 10) by by_evaluation.
  assert (H2 : (0 < 10)%Z) by lia.
  assert (H3 : (Z.to_nat 10 <= 10)%nat) by (vm_compute; lia).
  repeat (split; [assumption|]).
  destruct (generateCashFlows_schedule
              {| g_faceValue := lit 100; g_frequency := lit 2;
                 g_years := lit 5; g_periodicCoupon := lit 3;
                 g_bondPrice := lit 100 |} 10 10 H1 H2 H3)
    as (cashFlows & Hrun & Hlen & _ & _ & Hlast & _).
  exists cashFlows. split; [exact Hrun|]. split; [exact Hlen | exact Hlast].
Defined.

Lemma periodic_yield_minus_one_propagates_witness :
  (lit (-200) / lit 100 / lit 2)%num = lit (-1)
  /\ (lit 5 * lit 2)%num = Fin (Q2Qc 10)
  /\ (0 < Q2Qc 10)%Qc
  /\ (trips (Fin (Q2Qc 10)) 1 <= 10)%nat
  /\ (exists r : ValuationResult,
        calculateBondMetrics pow_frac_unreached 10
          (finite_bond (Q2Qc 100) (Q2Qc 6) (Q2Qc (-200)) (Q2Qc 5) (Q2Qc 2))
        = Return r
        /\ is_finite (vr_bondPrice r) = false).
Proof.
  assert (H1 : (lit (-200) / lit 100 / lit 2)%num = lit (-1))
    by by_evaluation.
  assert (H2 : (lit 5 * lit 2)%num = Fin (Q2Qc 10)) by by_evaluation.
  assert (H3 : (0 < Q2Qc 10)%Qc) by by_evaluation.
  assert (H4 : (trips (Fin (Q2Qc 10)) 1 <= 10)%nat) by (vm_compute; lia).
  repeat (split; [assumption|]).
  exact (proj1 (proj2 (periodic_yield_minus_one_propagates pow_frac_unreached
           (finite_bond (Q2Qc 100) (Q2Qc 6) (Q2Qc (-200)) (Q2Qc 5) (Q2Qc 2))
           (Q2Qc 10) 10 H1 H2 H3 H4))).
Defined.

Lemma price_against_face_value_witness :
  (0 < Q2Qc 100)%Qc
  /\ (0 <= Q2Qc 8)%Qc
  /\ (0 < Q2Qc 5)%Qc
  /\ (Q2Qc 5 * Q2Qc 2)%Qc = Qc_of_Z 10
  /\ (- 1 < Q2Qc 6 / Q2Qc 100 / Q2Qc 2)%Qc
  /\ (Z.to_nat 10 <= 10)%nat
  /\ exists (priceData : PriceComponents) (price : Qc),
       calculateBondPrice pow_frac_unreached 10 selfTest_premium
       = Return priceData
       /\ pc_price priceData = Fin price
       /\ ((Q2Qc 6 < Q2Qc 8)%Qc -> (Q2Qc 100 < price)%Qc)
       /\ ((Q2Qc 8 < Q2Qc 6)%Qc -> (price < Q2Qc 100)%Qc)
       /\ (Q2Qc 6 = Q2Qc 8 -> price = Q2Qc 100).
Proof.
  assert (H1 : (0 < Q2Qc 100)%Qc) by by_evaluation.
  assert (H2 : (0 <= Q2Qc 8)%Qc) by by_evaluation.
  assert (H3 : (0 < Q2Qc 5)%Qc) by by_evaluation.
  assert (H4 : (Q2Qc 5 * Q2Qc 2)%Qc = Qc_of_Z 10) by by_evaluation.
  assert (H5 : (- 1 < Q2Qc 6 / Q2Qc 100 / Q2Qc 2)%Qc) by by_evaluation.
  assert (H6 : (Z.to_nat 10 <= 10)%nat) by (vm_compute; lia).
  repeat (split; [assumption|]).
  exact (price_against_face_value pow_frac_unreached
           (Q2Qc 100) (Q2Qc 8) (Q2Qc 6) (Q2Qc 5) (Q2Qc 2) 10 10
           H1 H2 H3 (or_intror (or_introl eq_refl)) H4 H5 H6).
Defined.

Lemma merge_then_notify_in_two_steps_witness :
  exists w0 : Store,
    init pow_frac_unreached 10 initial_store = Return w0
    /\ is_Some (st_bondCalculations (state w0))
    /\ validateField ytm_field (lit 7) = None
    /\ hasErrors (delete (field_key ytm_field) (st_errors (state w0)))
       = false
    /\ (st_years (Object_assign (state w0) [SetField ytm_field (lit 7)])
        * st_frequency (state w0))%num <> PInf
    /\ (trips (st_years (Object_assign (state w0)
                           [SetField ytm_field (lit 7)])
               * st_frequency (state w0)) 1 <= 10)%nat
    /\ exists (w' : Store) (s1 : State) (c : ValuationResult),
         debouncedUpdate pow_frac_unreached 10 ytm_field (lit 7) w0
         = Return w'
         /\ st_ytm s1 = lit 7
         /\ st_bondCalculations s1 = st_bondCalculations (state w0)
         /\ st_bondCalculations (state w') = Some c
         /\ notified w'
            = notified w0
              ++ [(handleStateChange, s1); (handleStateChange, state w')].
Proof.
  pose (w0 := match init pow_frac_unreached 10 initial_store with
              | Return w => w
              | _ => initial_store
              end).
  exists w0.
  assert (H0 : init pow_frac_unreached 10 initial_store = Return w0)
    by (vm_compute; reflexivity).
  assert (Hres : is_Some (st_bondCalculations (state w0)))
    by (vm_compute; eexists; reflexivity).
  assert (H1 : validateField ytm_field (lit 7) = None) by reflexivity.
  assert (H2 : hasErrors (delete (field_key ytm_field)
                            (st_errors (state w0))) = false)
    by (vm_compute; reflexivity).
  assert (H3 : (st_years (Object_assign (state w0)
                            [SetField ytm_field (lit 7)])
                * st_frequency (state w0))%num <> PInf)
    by (vm_compute; discriminate).
  assert (H4 : (trips (st_years (Object_assign (state w0)
                                   [SetField ytm_field (lit 7)])
                       * st_frequency (state w0)) 1 <= 10)%nat)
    by (vm_compute; lia).
  repeat (split; [assumption|]).
  destruct (merge_then_notify_in_two_steps pow_frac_unreached 10 ytm_field
              (lit 7) w0 H1 H2 H3 H4)
    as (_ & w' & s1 & c & Hrun & Hs1 & Hvalue & _ & Hkept & _ & Hstate
        & Hnotified).
  exists w', s1, c. split; [exact Hrun|]. split; [exact Hvalue|].
  split; [exact Hkept|]. split.
  - rewrite Hstate. reflexivity.
  - rewrite Hnotified. reflexivity.
Defined.

Lemma fractional_periods_schedule_witness :
  (lit 2.25 * lit 2)%num = Fin (Q2Qc 4.5)
  /\ is_integral (Q2Qc 4.5) = false
  /\ (Z.to_nat (Qfloor (Q2Qc 4.5)) <= 4)%nat
  /\ exists (cashFlows : list CashFlow) (priceData : PriceComponents),
       generateCashFlows 4
         {| g_faceValue := lit 100; g_frequency := lit 2;
            g_years := lit 2.25; g_periodicCoupon := lit 3;
            g_bondPrice := lit 100 |}
       = Return cashFlows
       /\ length cashFlows = S (Z.to_nat (Qfloor (Q2Qc 4.5)))
       /\ Forall (fun cf => cf_principalPayment cf = lit 0) (tail cashFlows)
       /\ calculateBondPrice pow_frac_unreached 4
            (finite_bond (Q2Qc 100) (Q2Qc 6) (Q2Qc 0) (Q2Qc 2.25) (Q2Qc 2))
          = Return priceData
       /\ pc_periods priceData = Fin (Q2Qc 4.5)
       /\ is_integral (Q2Qc 4.5) = false.
Proof.
  assert (H1 : (lit 2.25 * lit 2)%num = Fin (Q2Qc 4.5)) by by_evaluation.
  assert (H2 : is_integral (Q2Qc 4.5) = false) by (vm_compute; reflexivity).
  assert (H3 : (Z.to_nat (Qfloor (Q2Qc 4.5)) <= 4)%nat)
    by (vm_compute; lia).
  repeat (split; [assumption|]).
  exact (fractional_periods_schedule pow_frac_unreached
           (finite_bond (Q2Qc 100) (Q2Qc 6) (Q2Qc 0) (Q2Qc 2.25) (Q2Qc 2))
           (lit 3) (lit 100) (Q2Qc 4.5) 4 H1 H2 H3).
Defined.

Lemma calculateBondMetrics_default_tolerance_witness :
  exists r : ValuationResult,
    calculateBondMetrics pow_frac_unreached 10 selfTest_par = Return r
    /\ vr_bondType r
       = analyzeBondType (vr_bondPrice r) (faceValue selfTest_par) None
    /\ vr_bondType r
       = analyzeBondType (vr_bondPrice r) (faceValue selfTest_par)
           (Some (lit 0.01)).
Proof.
  destruct (calculateBondMetrics pow_frac_unreached 10 selfTest_par)
    as [r| |] eqn:Hrun; [|vm_compute in Hrun; discriminate..].
  exists r. split; [reflexivity|].
  exact (calculateBondMetrics_default_tolerance pow_frac_unreached
           selfTest_par 10 r Hrun).
Defined.

(** ** Instances of the further properties *)

Lemma infinite_periods_never_return_witness :
  (PInf * lit 2)%num = PInf
  /\ calculateBondMetrics pow_frac_unreached 1000
       (mkBondParameters (lit 100) (lit 6) (lit 6) PInf (lit 2))
     = OutOfFuel.
Proof.
  assert (H1 : (PInf * lit 2)%num = PInf) by by_evaluation.
  split; [exact H1|].
  exact (proj2 (proj2 (infinite_periods_never_return pow_frac_unreached
           (mkBondParameters (lit 100) (lit 6) (lit 6) PInf (lit 2))
           (lit 3) (lit 100) 1000 H1))).
Defined.

Lemma less_than_one_period_witness :
  nle (of_Z 1) (lit 0.25 * lit 2)%num = false
  /\ generateCashFlows 0
       {| g_faceValue := lit 100; g_frequency := lit 2;
          g_years := lit 0.25; g_periodicCoupon := lit 3;
          g_bondPrice := lit 100 |}
     = Return
         [ {| cf_period := lit 0; cf_yearLabel := lit 0;
              cf_couponPayment := lit 0;
              cf_principalPayment := (- lit 100)%num;
              cf_totalCashFlow := (- lit 100)%num |} ].
Proof.
  assert (H1 : nle (of_Z 1) (lit 0.25 * lit 2)%num = false)
    by (vm_compute; reflexivity).
  split; [exact H1|].
  exact (proj2 (less_than_one_period pow_frac_unreached
           (finite_bond (Q2Qc 100) (Q2Qc 6) (Q2Qc 0) (Q2Qc 0.25) (Q2Qc 2))
           (lit 3) (lit 100) 0 H1)).
Defined.

Lemma zero_term_prices_at_face_value_witness :
  (lit 0 * lit 2)%num = lit 0
  /\ exists r : ValuationResult,
       calculateBondMetrics pow_frac_unreached 0
         (mkBondParameters (lit 100) (lit 6) NaN (lit 0) (lit 2))
       = Return r
       /\ vr_bondPrice r = lit 100.
Proof.
  assert (H1 : (lit 0 * lit 2)%num = lit 0) by by_evaluation.
  split; [exact H1|].
  destruct (zero_term_prices_at_face_value pow_frac_unreached
              (mkBondParameters (lit 100) (lit 6) NaN (lit 0) (lit 2))
              (Q2Qc 100) 0 H1 eq_refl)
    as (r & Hrun & Hprice & _).
  exists r. split; [exact Hrun | exact Hprice].
Defined.

Lemma returned_schedule_shape_witness :
  exists cashFlows : list CashFlow,
    generateCashFlows 10
      {| g_faceValue := lit 100; g_frequency := lit 2; g_years := lit 2.25;
         g_periodicCoupon := lit 3; g_bondPrice := lit 100 |}
    = Return cashFlows
    /\ length cashFlows = 5%nat.
Proof.
  destruct (generateCashFlows 10
              {| g_faceValue := lit 100; g_frequency := lit 2;
                 g_years := lit 2.25; g_periodicCoupon := lit 3;
                 g_bondPrice := lit 100 |})
    as [cashFlows| |] eqn:Hrun; [|vm_compute in Hrun; discriminate..].
  exists cashFlows. split; [reflexivity|].
  exact (proj1 (returned_schedule_shape _ 10 cashFlows Hrun)).
Defined.

Lemma final_entry_is_at_maturity_witness :
  (Q2Qc 5 * Q2Qc 2)%Qc = Qc_of_Z 10
  /\ (0 < 10)%Z
  /\ (Z.to_nat 10 <= 10)%nat
  /\ exists (cashFlows : list CashFlow) (final : CashFlow),
       generateCashFlows 10
         {| g_faceValue := Fin (Q2Qc 100); g_frequency := Fin (Q2Qc 2);
            g_years := Fin (Q2Qc 5); g_periodicCoupon := lit 3;
            g_bondPrice := lit 100 |}
       = Return cashFlows
       /\ last cashFlows = Some final
       /\ cf_period final = of_Z 10
       /\ cf_yearLabel final = Fin (Q2Qc 5)
       /\ cf_principalPayment final = Fin (Q2Qc 100).
Proof.
  assert (H1 : (Q2Qc 5 * Q2Qc 2)%Qc = Qc_of_Z 10) by by_evaluation.
  assert (H2 : (0 < 10)%Z) by lia.
  assert (H3 : (Z.to_nat 10 <= 10)%nat) by (vm_compute; lia).
  repeat (split; [assumption|]).
  exact (final_entry_is_at_maturity (Q2Qc 100) (Q2Qc 5) (Q2Qc 2) (lit 3)
           (lit 100) 10 10 H1 H2 H3).
Defined.

Lemma price_scales_with_face_value_witness :
  (Q2Qc 5 * Q2Qc 2)%Qc = Qc_of_Z 10
  /\ (0 < 10)%Z
  /\ (1 + Q2Qc 6 / Q2Qc 100 / Q2Qc 2)%Qc <> 0%Qc
  /\ (Z.to_nat 10 <= 10)%nat
  /\ exists P : Qc,
       pc_price <$> calculateBondPrice pow_frac_unreached 10
                      (finite_bond (Q2Qc 100) (Q2Qc 8) (Q2Qc 6) (Q2Qc 5)
                         (Q2Qc 2))
       = Return (Fin P)
       /\ pc_price <$> calculateBondPrice pow_frac_unreached 10
                         (finite_bond (Q2Qc 10 * Q2Qc 100) (Q2Qc 8) (Q2Qc 6)
                            (Q2Qc 5) (Q2Qc 2))
          = Return (Fin (Q2Qc 10 * P)).
Proof.
  assert (H1 : (Q2Qc 5 * Q2Qc 2)%Qc = Qc_of_Z 10) by by_evaluation.
  assert (H2 : (0 < 10)%Z) by lia.
  assert (H3 : (1 + Q2Qc 6 / Q2Qc 100 / Q2Qc 2)%Qc <> 0%Qc)
    by by_evaluation.
  assert (H4 : (Z.to_nat 10 <= 10)%nat) by (vm_compute; lia).
  repeat (split; [assumption|]).
  destruct (price_scales_with_face_value pow_frac_unreached
              (Q2Qc 100) (Q2Qc 8) (Q2Qc 6) (Q2Qc 5) (Q2Qc 2) (Q2Qc 10)
              10 10 H1 H2 H3 H4)
    as (P & C & V & c & Hone & Hten).
  exists P. rewrite Hone, Hten. split; reflexivity.
Defined.

Lemma price_increases_with_coupon_rate_witness :
  (0 < Q2Qc 100)%Qc
  /\ (0 < Q2Qc 2)%Qc
  /\ (Q2Qc 5 * Q2Qc 2)%Qc = Qc_of_Z 10
  /\ (0 < 10)%Z
  /\ (- 1 < Q2Qc 6 / Q2Qc 100 / Q2Qc 2)%Qc
  /\ (Z.to_nat 10 <= 10)%nat
  /\ (Q2Qc 4 < Q2Qc 8)%Qc
  /\ exists P1 P2 : Qc,
       pc_price <$> calculateBondPrice pow_frac_unreached 10
                      selfTest_discount
       = Return (Fin P1)
       /\ pc_price <$> calculateBondPrice pow_frac_unreached 10
                         selfTest_premium
          = Return (Fin P2)
       /\ (P1 < P2)%Qc.
Proof.
  assert (H1 : (0 < Q2Qc 100)%Qc) by by_evaluation.
  assert (H2 : (0 < Q2Qc 2)%Qc) by by_evaluation.
  assert (H3 : (Q2Qc 5 * Q2Qc 2)%Qc = Qc_of_Z 10) by by_evaluation.
  assert (H4 : (0 < 10)%Z) by lia.
  assert (H5 : (- 1 < Q2Qc 6 / Q2Qc 100 / Q2Qc 2)%Qc) by by_evaluation.
  assert (H6 : (Z.to_nat 10 <= 10)%nat) by (vm_compute; lia).
  assert (H7 : (Q2Qc 4 < Q2Qc 8)%Qc) by by_evaluation.
  repeat (split; [assumption|]).
  exact (price_increases_with_coupon_rate pow_frac_unreached
           (Q2Qc 100) (Q2Qc 4) (Q2Qc 8) (Q2Qc 6) (Q2Qc 5) (Q2Qc 2) 10 10
           H1 H2 H3 H4 H5 H6 H7).
Defined.

Lemma price_decreases_with_yield_witness :
  (0 < Q2Qc 100)%Qc
  /\ (0 <= Q2Qc 6)%Qc
  /\ (0 < Q2Qc 2)%Qc
  /\ (Q2Qc 5 * Q2Qc 2)%Qc = Qc_of_Z 10
  /\ (0 < 10)%Z
  /\ (- 1 < Q2Qc 6 / Q2Qc 100 / Q2Qc 2)%Qc
  /\ (Z.to_nat 10 <= 10)%nat
  /\ (Q2Qc 6 < Q2Qc 8)%Qc
  /\ exists P1 P2 : Qc,
       pc_price <$> calculateBondPrice pow_frac_unreached 10 selfTest_par
       = Return (Fin P1)
       /\ pc_price <$> calculateBondPrice pow_frac_unreached 10
                         (finite_bond (Q2Qc 100) (Q2Qc 6) (Q2Qc 8) (Q2Qc 5)
                            (Q2Qc 2))
          = Return (Fin P2)
       /\ (P2 < P1)%Qc.
Proof.
  assert (H1 : (0 < Q2Qc 100)%Qc) by by_evaluation.
  assert (H2 : (0 <= Q2Qc 6)%Qc) by by_evaluation.
  assert (H3 : (0 < Q2Qc 2)%Qc) by by_evaluation.
  assert (H4 : (Q2Qc 5 * Q2Qc 2)%Qc = Qc_of_Z 10) by by_evaluation.
  assert (H5 : (0 < 10)%Z) by lia.
  assert (H6 : (- 1 < Q2Qc 6 / Q2Qc 100 / Q2Qc 2)%Qc) by by_evaluation.
  assert (H7 : (Z.to_nat 10 <= 10)%nat) by (vm_compute; lia).
  assert (H8 : (Q2Qc 6 < Q2Qc 8)%Qc) by by_evaluation.
  repeat (split; [assumption|]).
  exact (price_decreases_with_yield pow_frac_unreached
           (Q2Qc 100) (Q2Qc 6) (Q2Qc 6) (Q2Qc 8) (Q2Qc 5) (Q2Qc 2) 10 10
           H1 H2 H3 H4 H5 H6 H7 H8).
Defined.

Lemma zero_yield_price_is_undiscounted_witness :
  (Q2Qc 5 * Q2Qc 2)%Qc = Qc_of_Z 10
  /\ (0 < 10)%Z
  /\ (Z.to_nat 10 <= 10)%nat
  /\ exists priceData : PriceComponents,
       calculateBondPrice pow_frac_unreached 10
         (finite_bond (Q2Qc 100) (Q2Qc 6) 0%Qc (Q2Qc 5) (Q2Qc 2))
       = Return priceData
       /\ pc_pvFaceValue priceData = Fin (Q2Qc 100).
Proof.
  assert (H1 : (Q2Qc 5 * Q2Qc 2)%Qc = Qc_of_Z 10) by by_evaluation.
  assert (H2 : (0 < 10)%Z) by lia.
  assert (H3 : (Z.to_nat 10 <= 10)%nat) by (vm_compute; lia).
  repeat (split; [assumption|]).
  destruct (zero_yield_price_is_undiscounted pow_frac_unreached
              (Q2Qc 100) (Q2Qc 6) (Q2Qc 5) (Q2Qc 2) 10 10 H1 H2 H3)
    as (priceData & Hrun & _ & Hface & _).
  exists priceData. split; [exact Hrun | exact Hface].
Defined.

Lemma analyzeBondType_nonpositive_tolerance_witness :
  (Q2Qc 0 <= 0)%Qc
  /\ analyzeBondType (Fin (Q2Qc 100)) (Fin (Q2Qc 100)) (Some (Fin (Q2Qc 0)))
     = {| bt_type := discount; bt_description := "Discount bond";
          bt_difference := lit 0 |}.
Proof.
  assert (H1 : (Q2Qc 0 <= 0)%Qc) by by_evaluation.
  split; [exact H1|].
  exact (proj2 (analyzeBondType_nonpositive_tolerance (Q2Qc 100) (Q2Qc 100)
                  (Q2Qc 0) H1)).
Defined.

Lemma analyzeBondType_swap_witness :
  (0 < Q2Qc 0.01)%Qc
  /\ bt_type (analyzeBondType (Fin (Q2Qc 100)) (Fin (Q2Qc 105))
                (Some (Fin (Q2Qc 0.01))))
     = swap_type (bt_type (analyzeBondType (Fin (Q2Qc 105)) (Fin (Q2Qc 100))
                             (Some (Fin (Q2Qc 0.01))))).
Proof.
  assert (H1 : (0 < Q2Qc 0.01)%Qc) by by_evaluation.
  split; [exact H1|].
  exact (proj2 (analyzeBondType_swap (Q2Qc 105) (Q2Qc 100) (Q2Qc 0.01) H1)).
Defined.

Lemma minus_one_yield_is_infinite_premium_witness :
  (0 < Q2Qc 100)%Qc
  /\ (0 < Q2Qc 6)%Qc
  /\ (0 < Q2Qc 2)%Qc
  /\ (Q2Qc 5 * Q2Qc 2)%Qc = Qc_of_Z 10
  /\ (0 < 10)%Z
  /\ (Q2Qc (-200) / Q2Qc 100 / Q2Qc 2)%Qc = (- 1)%Qc
  /\ (Z.to_nat 10 <= 10)%nat
  /\ exists r : ValuationResult,
       calculateBondMetrics pow_frac_unreached 10
         (finite_bond (Q2Qc 100) (Q2Qc 6) (Q2Qc (-200)) (Q2Qc 5) (Q2Qc 2))
       = Return r
       /\ vr_bondType r
          = {| bt_type := premium; bt_description := "Premium bond";
               bt_difference := PInf |}.
Proof.
  assert (H1 : (0 < Q2Qc 100)%Qc) by by_evaluation.
  assert (H2 : (0 < Q2Qc 6)%Qc) by by_evaluation.
  assert (H3 : (0 < Q2Qc 2)%Qc) by by_evaluation.
  assert (H4 : (Q2Qc 5 * Q2Qc 2)%Qc = Qc_of_Z 10) by by_evaluation.
  assert (H5 : (0 < 10)%Z) by lia.
  assert (H6 : (Q2Qc (-200) / Q2Qc 100 / Q2Qc 2)%Qc = (- 1)%Qc)
    by by_evaluation.
  assert (H7 : (Z.to_nat 10 <= 10)%nat) by (vm_compute; lia).
  repeat (split; [assumption|]).
  destruct (minus_one_yield_is_infinite_premium pow_frac_unreached
              (Q2Qc 100) (Q2Qc 6) (Q2Qc (-200)) (Q2Qc 5) (Q2Qc 2) 10 10
              H1 H2 H3 H4 H5 H6 H7)
    as (r & Hrun & _ & _ & _ & _ & Htype).
  exists r. split; [exact Hrun | exact Htype].
Defined.

Lemma valuation_result_is_consistent_witness :
  exists r : ValuationResult,
    calculateBondMetrics pow_frac_unreached 10 selfTest_premium = Return r
    /\ vr_bondPrice r = (vr_pvCoupons r + vr_pvFaceValue r)%num
    /\ length (vr_cashFlows r) = S (trips (vr_periods r) 1).
Proof.
  destruct (calculateBondMetrics pow_frac_unreached 10 selfTest_premium)
    as [r| |] eqn:Hrun; [|vm_compute in Hrun; discriminate..].
  exists r. split; [reflexivity|].
  destruct (valuation_result_is_consistent pow_frac_unreached
              selfTest_premium 10 r Hrun) as (Hsum & _ & Hlen & _).
  split; [exact Hsum | exact Hlen].
Defined.

Lemma updateCalculations_postcondition_witness :
  exists w' : Store,
    updateCalculations pow_frac_unreached 10 initial_store = Return w'
    /\ params_of_state (state w') = params_of_state (state initial_store)
    /\ st_errors (state w') = st_errors (state initial_store).
Proof.
  destruct (updateCalculations pow_frac_unreached 10 initial_store)
    as [w'| |] eqn:Hrun; [|vm_compute in Hrun; discriminate..].
  exists w'. split; [reflexivity|].
  destruct (updateCalculations_postcondition pow_frac_unreached 10
              initial_store w' Hrun) as (Hp & He & _).
  split; [exact Hp | exact He].
Defined.

Lemma debouncedUpdate_bookkeeping_witness :
  exists w' : Store,
    debouncedUpdate pow_frac_unreached 10 years_field NaN initial_store
    = Return w'
    /\ st_errors (state w') !! field_key years_field
       = validateField years_field NaN
    /\ get_field years_field (state w') = NaN.
Proof.
  destruct (debouncedUpdate pow_frac_unreached 10 years_field NaN
              initial_store)
    as [w'| |] eqn:Hrun; [|vm_compute in Hrun; discriminate..].
  exists w'. split; [reflexivity|].
  destruct (debouncedUpdate_bookkeeping pow_frac_unreached 10 years_field
              NaN initial_store w' Hrun) as (He & _ & Hv & _).
  split; [exact He | exact Hv].
Defined.

Lemma error_is_cleared_by_next_valid_edit_witness :
  st_errors (state initial_store) = ∅
  /\ validateField couponRate_field (lit (-1))
     = Some "Coupon rate must be zero or more"
  /\ validateField couponRate_field (lit 5) = None
  /\ (st_years (Object_assign (state initial_store)
                  [SetField couponRate_field (lit 5)])
      * st_frequency (state initial_store))%num <> PInf
  /\ (trips (st_years (Object_assign (state initial_store)
                         [SetField couponRate_field (lit 5)])
             * st_frequency (state initial_store)) 1 <= 10)%nat
  /\ exists w1 w2 : Store,
       debouncedUpdate pow_frac_unreached 10 couponRate_field (lit (-1))
         initial_store
       = Return w1
       /\ debouncedUpdate pow_frac_unreached 10 couponRate_field (lit 5) w1
          = Return w2
       /\ st_errors (state w2) = ∅
       /\ get_field couponRate_field (state w2) = lit 5.
Proof.
  assert (H1 : st_errors (state initial_store) = ∅) by reflexivity.
  assert (H2 : validateField couponRate_field (lit (-1))
               = Some "Coupon rate must be zero or more") by reflexivity.
  assert (H3 : validateField couponRate_field (lit 5) = None)
    by reflexivity.
  assert (H4 : (st_years (Object_assign (state initial_store)
                            [SetField couponRate_field (lit 5)])
                * st_frequency (state initial_store))%num <> PInf)
    by (vm_compute; discriminate).
  assert (H5 : (trips (st_years (Object_assign (state initial_store)
                                   [SetField couponRate_field (lit 5)])
                       * st_frequency (state initial_store)) 1 <= 10)%nat)
    by (vm_compute; lia).
  repeat (split; [assumption|]).
  destruct (error_is_cleared_by_next_valid_edit pow_frac_unreached 10
              couponRate_field (lit (-1)) (lit 5) _ initial_store
              H1 H2 H3 H4 H5)
    as (w1 & w2 & Hrun1 & Hrun2 & _ & _ & He & Hv & _).
  exists w1, w2. split; [exact Hrun1|]. split; [exact Hrun2|].
  split; [exact He | exact Hv].
Defined.

Lemma narrow_resize_never_draws_chart_witness :
  nlt (lit 500) (lit 600) = true
  /\ st_viewMode (state (resizeCallback (lit 500) initial_store).1) = table
  /\ (resizeCallback (lit 500) initial_store).2 = [].
Proof.
  assert (H1 : nlt (lit 500) (lit 600) = true) by (vm_compute; reflexivity).
  split; [exact H1|].
  destruct (narrow_resize_never_draws_chart (lit 500) initial_store H1)
    as (Hview & Hdirect & _).
  split; [exact Hview | exact Hdirect].
Defined.

Lemma init_page_notifies_once_witness :
  st_listeners (state initial_store) = []
  /\ hasErrors (st_errors (state initial_store)) = false
  /\ (st_years (state initial_store)
      * st_frequency (state initial_store))%num <> PInf
  /\ (trips (st_years (state initial_store)
             * st_frequency (state initial_store)) 1 <= 10)%nat
  /\ exists w' : Store,
       init_page pow_frac_unreached 10 (lit 500) initial_store = Return w'
       /\ notified w' = [(handleStateChange, state w')]
       /\ st_viewMode (state w') = table.
Proof.
  assert (H1 : st_listeners (state initial_store) = []) by reflexivity.
  assert (H2 : hasErrors (st_errors (state initial_store)) = false)
    by (vm_compute; reflexivity).
  assert (H3 : (st_years (state initial_store)
                * st_frequency (state initial_store))%num <> PInf)
    by (vm_compute; discriminate).
  assert (H4 : (trips (st_years (state initial_store)
                       * st_frequency (state initial_store)) 1 <= 10)%nat)
    by (vm_compute; lia).
  repeat (split; [assumption|]).
  destruct (init_page_notifies_once pow_frac_unreached 10 (lit 500)
              initial_store H1 H2 H3 H4)
    as (w' & Hrun & _ & Hlog & Hview & _).
  exists w'. split; [exact Hrun|]. split; [exact Hlog | exact Hview].
Defined.

Lemma keyboard_focus_stays_on_a_bar_witness :
  exists cashFlows : list CashFlow,
    generateCashFlows 10
      {| g_faceValue := lit 100; g_frequency := lit 2; g_years := lit 5;
         g_periodicCoupon := lit 3; g_bondPrice := lit 100 |}
    = Return cashFlows
    /\ is_Some (cashFlows
                !! Z.to_nat
                     (currentFocusIndex
                        (press_keys cashFlows
                           ["End"; "ArrowRight"; "ArrowLeft"]
                           (focus_after_render (mkChartFocus 7 false))))).
Proof.
  destruct (generateCashFlows 10
              {| g_faceValue := lit 100; g_frequency := lit 2;
                 g_years := lit 5; g_periodicCoupon := lit 3;
                 g_bondPrice := lit 100 |})
    as [cashFlows| |] eqn:Hrun; [|vm_compute in Hrun; discriminate..].
  exists cashFlows. split; [reflexivity|].
  exact (proj1 (proj2 (keyboard_focus_stays_on_a_bar _ 10 cashFlows
                         ["End"; "ArrowRight"; "ArrowLeft"] "Home"
                         (mkChartFocus 7 false) Hrun))).
Defined.

Lemma key_bindings_witness :
  (0 <= currentFocusIndex (mkChartFocus 1 false)
   < Z.of_nat (length [purchase_entry
                         (mkCashFlowParams (lit 100) (lit 2) (lit 1) (lit 3)
                            (lit 100));
                       reference_entry
                         (mkCashFlowParams (lit 100) (lit 2) (lit 1) (lit 3)
                            (lit 100)) 2 1]))%Z
  /\ currentFocusIndex
       (keydownListener
          [purchase_entry
             (mkCashFlowParams (lit 100) (lit 2) (lit 1) (lit 3) (lit 100));
           reference_entry
             (mkCashFlowParams (lit 100) (lit 2) (lit 1) (lit 3) (lit 100))
             2 1]
          [] "Home" (mkChartFocus 1 false)).1
     = 0%Z.
Proof.
  assert (H1 : (0 <= currentFocusIndex (mkChartFocus 1 false)
                < Z.of_nat
                    (length [purchase_entry
                               (mkCashFlowParams (lit 100) (lit 2) (lit 1)
                                  (lit 3) (lit 100));
                             reference_entry
                               (mkCashFlowParams (lit 100) (lit 2) (lit 1)
                                  (lit 3) (lit 100)) 2 1]))%Z)
    by (simpl; lia).
  split; [exact H1|].
  exact (proj1 (key_bindings _ [] (mkChartFocus 1 false) H1)).
Defined.

Lemma chart_bars_stack_to_totals_witness :
  exists cashFlows : list CashFlow,
    generateCashFlows 10
      {| g_faceValue := lit 100; g_frequency := lit 2; g_years := lit 5;
         g_periodicCoupon := lit 3; g_bondPrice := NaN |}
    = Return cashFlows
    /\ zip_with nadd (cd_couponData (chartData cashFlows))
         (cd_principalData (chartData cashFlows))
       = cd_totalData (chartData cashFlows).
Proof.
  destruct (generateCashFlows 10
              {| g_faceValue := lit 100; g_frequency := lit 2;
                 g_years := lit 5; g_periodicCoupon := lit 3;
                 g_bondPrice := NaN |})
    as [cashFlows| |] eqn:Hrun; [|vm_compute in Hrun; discriminate..].
  exists cashFlows. split; [reflexivity|].
  exact (proj1 (chart_bars_stack_to_totals _ 10 cashFlows Hrun)).
Defined.

Lemma only_the_purchase_bar_is_purchase_coloured_witness :
  (0 <= Q2Qc 100)%Qc
  /\ (0 < Q2Qc 100)%Qc
  /\ (Q2Qc 5 * Q2Qc 2)%Qc = Qc_of_Z 10
  /\ (0 < 10)%Z
  /\ (Z.to_nat 10 <= 10)%nat
  /\ exists cashFlows : list CashFlow,
       generateCashFlows 10
         {| g_faceValue := Fin (Q2Qc 100); g_frequency := Fin (Q2Qc 2);
            g_years := Fin (Q2Qc 5); g_periodicCoupon := lit 3;
            g_bondPrice := Fin (Q2Qc 100) |}
       = Return cashFlows
       /\ cd_principalColors (chartData cashFlows)
          = COLORS_purchase :: replicate (Z.to_nat 10) COLORS_mint.
Proof.
  assert (H1 : (0 <= Q2Qc 100)%Qc) by by_evaluation.
  assert (H2 : (0 < Q2Qc 100)%Qc) by by_evaluation.
  assert (H3 : (Q2Qc 5 * Q2Qc 2)%Qc = Qc_of_Z 10) by by_evaluation.
  assert (H4 : (0 < 10)%Z) by lia.
  assert (H5 : (Z.to_nat 10 <= 10)%nat) by (vm_compute; lia).
  repeat (split; [assumption|]).
  exact (only_the_purchase_bar_is_purchase_coloured (Q2Qc 100) (Q2Qc 5)
           (Q2Qc 2) (Q2Qc 100) (lit 3) 10 10 H1 H2 H3 H4 H5).
Defined.

Lemma runSelfTests_all_pass_witness :
  (10 <= 10)%nat
  /\ runSelfTests pow_frac_unreached 10
     = Return [ log_passed "Par bond pricing";
                log_passed "Premium bond pricing";
                log_passed "Discount bond pricing" ].
Proof.
  assert (H1 : (10 <= 10)%nat) by lia.
  split; [exact H1|].
  exact (runSelfTests_all_pass pow_frac_unreached 10 H1).
Defined.

Lemma tooltip_input_id_keeps_second_piece_witness :
  dashless "tooltip" = true
  /\ dashless "years" = true
  /\ "years" <> EmptyString
  /\ tooltip_input_id ("tooltip" +:+ String "-"%char "years") = "years".
Proof.
  assert (H1 : dashless "tooltip" = true) by reflexivity.
  assert (H2 : dashless "years" = true) by reflexivity.
  assert (H3 : "years" <> EmptyString) by discriminate.
  repeat (split; [assumption|]).
  exact (proj1 (proj2 (tooltip_input_id_keeps_second_piece "tooltip" "years"
                         "x" H1 H2 H3))).
Defined.
